(** * pubmed_author_papers: citation parsing and incremental ingestion

    A shallow embedding of [pubmed_author_papers.py].  Python dictionaries
    whose values are strings are finite maps ([gmap string string]); the
    nested dictionaries of a PubMed entry are records whose fields are
    optional, a missing key being [None] and a subscript on it a [KeyError].
    Exceptions are a [result]; file and console effects are threaded through
    a [world] that holds the files by path and the trace of what the run did.
    Files are opened in text mode: what is read is the stored text with its
    line endings translated. *)

From stdpp Require Import base strings list gmap pretty.
From Stdlib Require Import ZArith Ascii.

Open Scope Z_scope.

(** ** Strings: [str.join] and [str.split] *)

Definition nl : string := String "010"%char "".

(** [sep.join(ls)] *)
Definition join (sep : string) (ls : list string) : string := String.concat sep ls.

(** [s.split(c)] for a one-character separator: never the empty list *)
Fixpoint split (c : ascii) (s : string) : list string :=
  match s with
  | EmptyString => [EmptyString]
  | String a r =>
      if decide (a = c) then EmptyString :: split c r
      else match split c r with
           | [] => [String a EmptyString]
           | h :: t => String a h :: t
           end
  end.

Definition comma : ascii := ","%char.

(** no occurrence of the character [c] *)
Fixpoint free_of (c : ascii) (s : string) : Prop :=
  match s with
  | EmptyString => True
  | String a r => a ≠ c ∧ free_of c r
  end.

(** What a file opened in text mode hands over on reading: universal
    newlines, a carriage return with the line feed that follows it, or a
    carriage return alone, being read as one line feed.  [after_cr] tells
    that the character before was a carriage return, whose line feed has
    been given out already. *)
Definition carriage_return : ascii := "013"%char.
Definition line_feed : ascii := "010"%char.

Fixpoint translate_newlines (after_cr : bool) (s : string) : string :=
  match s with
  | EmptyString => EmptyString
  | String a r =>
      if decide (a = carriage_return) then
        String line_feed (translate_newlines true r)
      else if decide (a = line_feed) then
        if after_cr then translate_newlines false r
        else String line_feed (translate_newlines false r)
      else String a (translate_newlines false r)
  end.

Definition universal_newlines (s : string) : string := translate_newlines false s.

(** ** Exceptions *)

Inductive exn : Type :=
  | KeyError (key : string)
  | IOError (path : string)
  | IndexError
  | TypeError
  | RemoteError (msg : string).

Inductive result (A : Type) : Type :=
  | Ok (a : A)
  | Raise (e : exn).
Arguments Ok {A} a.
Arguments Raise {A} e.

#[global] Instance result_ret : MRet result := λ A a, Ok a.
#[global] Instance result_bind : MBind result := λ A B f m,
  match m with
  | Ok a => f a
  | Raise e => Raise e
  end.

(** [d[key]] on a dictionary of strings *)
Definition getitem (d : gmap string string) (key : string) : result string :=
  match d !! key with
  | Some v => Ok v
  | None => Raise (KeyError key)
  end.

(** [r[key]] on a record field that may be missing *)
Definition field {A : Type} (key : string) (o : option A) : result A :=
  match o with
  | Some v => Ok v
  | None => Raise (KeyError key)
  end.

(** ** The PubMed entry, as [Entrez.read] hands it over

    Only the keys the program reads are kept, each of them possibly missing.
    The dictionaries the program reads strings from (an author, a date, the
    pagination) are maps from key to string; [Abstract] is the text that
    [format] prints for the entry's abstract. *)

Record journal_issue : Type := JournalIssueOf {
  Volume : option string;
  Issue : option string;
  PubDate : option (gmap string string) }.

Record journal : Type := JournalOf {
  ISOAbbreviation : option string;
  JournalIssue : option journal_issue }.

Record article : Type := ArticleOf {
  AuthorList : option (list (gmap string string));
  Abstract : option string;
  ArticleDate : option (list (gmap string string));
  ArticleTitle : option string;
  Pagination : option (gmap string string);
  Journal : option journal;
  ELocationID : option (list string) }.

Record medline_citation : Type := MedlineCitationOf {
  Article : option article }.

Record pubmed_entry : Type := PubmedEntryOf {
  MedlineCitation : option medline_citation }.

(** ** Parsing one entry *)

Definition parse_author (author_info : gmap string string) : result string :=
  last ← getitem author_info "LastName";
  forename ← getitem author_info "ForeName";
  mret (join ", " [last; forename]).

(** [pagination] is [False] ([None]) or the entry's Pagination dictionary;
    an empty dictionary is falsy as well. *)
Definition truthy (pagination : option (gmap string string)) : bool :=
  match pagination with
  | Some d => bool_decide (d ≠ ∅)
  | None => false
  end.

Definition parse_journal (journal_info : journal)
    (pagination : option (gmap string string)) : result string :=
  abbrev ← field "ISOAbbreviation" (ISOAbbreviation journal_info);
  match JournalIssue journal_info with
  | Some issue =>
      if truthy pagination && bool_decide (is_Some (Issue issue)) then
        volume ← field "Volume" (Volume issue);
        number ← field "Issue" (Issue issue);
        pgn ← getitem (default ∅ pagination) "MedlinePgn";
        mret (join ", " [abbrev; volume; number; pgn])
      else
        volume ← field "Volume" (Volume issue);
        mret (join ", " [abbrev; volume])
  | None => mret abbrev
  end.

Record Paper : Type := PaperOf {
  abstract : string;
  first_author : string;
  year : string;
  title : string;
  journal_info : string;
  link : string;
  yml : string;
  long_print : string }.

(** lines 79-82: the author display *)
Definition author_display (authors : list (gmap string string)) : result string :=
  if decide (length authors < 3)%nat then
    names ← mapM parse_author authors;
    mret (join ", " names +:+ ".")
  else
    match authors with
    | a :: _ => name ← parse_author a; mret (name +:+ " et al.")
    | [] => Raise IndexError
    end.

(** line 88: [article_info['Journal']['JournalIssue']['PubDate']['Year']] *)
Definition journal_year (article_info : article) : result string :=
  j ← field "Journal" (Journal article_info);
  issue ← field "JournalIssue" (JournalIssue j);
  date ← field "PubDate" (PubDate issue);
  getitem date "Year".

(** lines 84-90: the year *)
Definition resolve_year (article_info : article) : result string :=
  dates ← field "ArticleDate" (ArticleDate article_info);
  match dates with
  | d :: _ => getitem d "Year"
  | [] =>
      match journal_year article_info with
      | Ok y => Ok y
      | Raise (KeyError _) => Ok ""
      | Raise e => Raise e
      end
  end.

Definition format_yml (first_author title journal_info link year : string) : string :=
  "- author: " +:+ first_author +:+ nl +:+
  "  title: '" +:+ title +:+ " " +:+ journal_info +:+ ".'" +:+ nl +:+
  "  alt_link: '" +:+ link +:+ "'" +:+ nl +:+
  "  year: " +:+ year +:+ nl +:+ nl.

Definition format_long_print
    (first_author year title journal_info abstract link : string) : string :=
  "author: " +:+ first_author +:+ nl +:+
  "year: " +:+ year +:+ nl +:+
  "title: '" +:+ title +:+ " " +:+ nl +:+ journal_info +:+ ".'" +:+ nl +:+
  "abstract: '" +:+ abstract +:+ "'" +:+ nl +:+
  "DOI_link: '" +:+ link +:+ "'" +:+ nl +:+ nl.

(** [Paper.__init__] without its [print]: the fields, in the order the
    constructor computes them. *)
Definition Paper_fields (pubmed_entry : pubmed_entry) : result Paper :=
  citation ← field "MedlineCitation" (MedlineCitation pubmed_entry);
  article_info ← field "Article" (Article citation);
  authors ← field "AuthorList" (AuthorList article_info);
  let abstract := default "" (Abstract article_info) in
  first_author ← author_display authors;
  year ← resolve_year article_info;
  title ← field "ArticleTitle" (ArticleTitle article_info);
  let pagination := Pagination article_info in
  j ← field "Journal" (Journal article_info);
  journal_info ← parse_journal j pagination;
  eloc ← field "ELocationID" (ELocationID article_info);
  let link := match eloc with
              | e :: _ => "https://doi.org/" +:+ e
              | [] => ""
              end in
  mret {| abstract := abstract; first_author := first_author; year := year;
          title := title; journal_info := journal_info; link := link;
          yml := format_yml first_author title journal_info link year;
          long_print :=
            format_long_print first_author year title journal_info abstract link |}.

(** ** Files, console and the remote service *)

Inductive event : Type :=
  | ESearch (term : string) (retmax : Z)
  | EFetch (ids : string)
  | EOpenW (path : string)
  | EWrite (path data : string)
  | EPrint (line : string).

Record world : Type := World {
  files : gmap string string;
  trace : list event }.

Definition log (e : event) (w : world) : world :=
  {| files := files w; trace := trace w ++ [e] |}.

(** A computation runs in a world and leaves one, also when it raises. *)
Definition M (A : Type) : Type := world → result A * world.

#[global] Instance M_ret : MRet M := λ A a w, (Ok a, w).
#[global] Instance M_bind : MBind M := λ A B f m w,
  match m w with
  | (Ok a, w') => f a w'
  | (Raise e, w') => (Raise e, w')
  end.

Definition lift {A : Type} (r : result A) : M A := λ w, (r, w).

(** [try: body except IOError: handler] *)
Definition try_except_IOError {A : Type} (body handler : M A) : M A := λ w,
  match body w with
  | (Raise (IOError _), w') => handler w'
  | r => r
  end.

(** [f = open(path, 'r'); f.read(); f.close()]: the file is opened in text
    mode, so what is read is the stored text with its line endings
    translated *)
Definition read_file (path : string) : M string := λ w,
  match files w !! path with
  | Some s => (Ok (universal_newlines s), w)
  | None => (Raise (IOError path), w)
  end.

(** [open(path, 'w')]: the file exists and is empty from here on *)
Definition open_w (path : string) : M unit := λ w,
  (Ok (), log (EOpenW path) {| files := <[path := ""]> (files w); trace := trace w |}).

(** [f.write(data)] on a file opened for writing.  Text mode writes a line
    feed as the platform's line separator; the files here are those of a
    platform where that is the line feed itself, so [data] is stored as
    given. *)
Definition write (path data : string) : M unit := λ w,
  (Ok (), log (EWrite path data)
     {| files := <[path := default "" (files w !! path) +:+ data]> (files w);
        trace := trace w |}).

Definition print (line : string) : M unit := λ w, (Ok (), log (EPrint line) w).

(** The NCBI service behind [Entrez.esearch] and [Entrez.efetch], each
    already read into its ['IdList'] or ['PubmedArticle']. *)
Record entrez : Type := Entrez {
  esearch : string → string → Z → result (list string);
  efetch : string → string → result (list pubmed_entry) }.

Definition ids_path : string := "_data/recent_pubmed_ids.txt".
Definition papers_path : string := "_data/papers.yml".

(** line 139: [[i for i in ids if i not in previous_ids]] *)
Definition ids_new (ids previous_ids : list string) : list string :=
  filter (λ i, i ∉ previous_ids) ids.

(** line 140 *)
Definition all_ids (ids previous_ids : list string) : list string :=
  ids_new ids previous_ids ++ previous_ids.

Record args : Type := Args {
  email : string;
  author : string;
  max : Z;
  verbose : bool;
  do_not_populate : bool }.

Section Program.
Context (E : entrez).

(** [Paper(pubmed_entry)], with the trace line it prints *)
Definition Paper_init (pubmed_entry : pubmed_entry) : M Paper :=
  p ← lift (Paper_fields pubmed_entry);
  _ ← print (join " " [first_author p; title p; link p; journal_info p]);
  mret p.

Definition search_author (query email : string) (max_search : Z) : M (list string) :=
  λ w, (esearch E email query max_search, log (ESearch query max_search) w).

Definition fetch_details (id_list : list string) (email : string)
    : M (list pubmed_entry) :=
  let ids := join "," id_list in
  λ w, (efetch E email ids, log (EFetch ids) w).

(** lines 130-137 *)
Definition load_previous_ids : M (list string) :=
  try_except_IOError
    (s ← read_file ids_path; mret (split comma s))
    (_ ← open_w ids_path; mret []).

Definition fetch_new_papers (ids : list string) (email : string) (verbose : bool)
    : M (option (list string)) :=
  previous_ids ← load_previous_ids;
  let ids_new := ids_new ids previous_ids in
  let all_ids := all_ids ids previous_ids in
  if verbose then
    results ← fetch_details ids email;
    prints ← mapM (λ i, p ← Paper_init i; mret (long_print p)) results;
    mret (Some prints)
  else if bool_decide (length ids_new ≠ 0%nat) then
    results ← fetch_details ids_new email;
    papers ← mapM (λ i, p ← Paper_init i; mret (yml p)) results;
    _ ← open_w ids_path;
    _ ← write ids_path (join "," all_ids);
    mret (Some papers)
  else
    _ ← print "No new papers found.";
    mret None.

Definition add_new_papers (new_papers : list string) : M unit :=
  if bool_decide (new_papers ≠ []) then
    original_text ← read_file papers_path;
    let new_papers := join "" new_papers in
    _ ← open_w papers_path;
    _ ← write papers_path new_papers;
    _ ← write papers_path original_text;
    mret ()
  else mret ().

(** lines 198-205: the store's text, or the empty list (of length 0 as
    well) once the file had to be created *)
Definition load_current_papers : M string :=
  try_except_IOError
    (read_file papers_path)
    (_ ← open_w papers_path; mret "").

Definition main (a : args) : M unit :=
  let user_email := email a in
  let author := author a +:+ "[Author]" in
  current_papers ← load_current_papers;
  ids ← (if bool_decide (String.length current_papers ≠ 0%nat) then
           search_author author user_email (max a)
         else
           search_author author user_email
             (if bool_decide (max a ≠ 0) then max a else 100));
  if bool_decide (length ids = 0%nat) then mret ()
  else
    _ ← (if verbose a then
           papers ← fetch_new_papers ids user_email (verbose a);
           match papers with
           | Some papers => _ ← mapM print papers; mret ()
           | None => lift (Raise TypeError)
           end
         else mret ());
    if negb (do_not_populate a) then
      papers ← fetch_new_papers ids user_email false;
      match papers with
      | Some papers =>
          _ ← add_new_papers papers;
          print ("Added " +:+ pretty (length papers) +:+ " new papers.")
      | None => mret ()
      end
    else mret ().

End Program.

(** ** What the statements below observe *)

Definition is_print (e : event) : bool :=
  match e with EPrint _ => true | _ => false end.

Definition is_write (e : event) : bool :=
  match e with EWrite _ _ => true | _ => false end.

(** the identifiers the tracker reads in a world (lines 130-137) *)
Definition known_ids (w : world) : list string :=
  match files w !! ids_path with
  | Some s => split comma (universal_newlines s)
  | None => []
  end.

(** the bytes of a file, none when it does not exist *)
Definition content (w : world) (path : string) : string :=
  default "" (files w !! path).

(** lines 163-171: what the store holds after [add_new_papers] found [C] in
    it: untouched when there is nothing to add, else the blocks followed by
    [C] as it was read *)
Definition prepended (new_papers : list string) (C : string) : string :=
  if decide (new_papers = []) then C
  else join "" new_papers +:+ universal_newlines C.

(** the world once a missing file has been created by [open(path, 'w')] *)
Definition ensured (path : string) (w : world) : world :=
  match files w !! path with
  | Some _ => w
  | None => {| files := <[path := ""]> (files w); trace := trace w ++ [EOpenW path] |}
  end.

(** the list comprehension [[Paper(i).f for i in results]], prints aside *)
Definition render (f : Paper → string) (results : list pubmed_entry)
    : result (list string) :=
  mapM (λ i, p ← Paper_fields i; mret (f p)) results.

Definition malformed (e : pubmed_entry) : Prop := ∃ err, Paper_fields e = Raise err.

(** the author dictionary carries this last name and forename *)
Definition named (author_info : gmap string string) (lf : string * string) : Prop :=
  author_info !! "LastName" = Some lf.1 ∧ author_info !! "ForeName" = Some lf.2.

Definition last_first (lf : string * string) : string := lf.1 +:+ ", " +:+ lf.2.

Definition article_of (e : pubmed_entry) : option article :=
  citation ← MedlineCitation e; Article citation.

Definition authors_of (e : pubmed_entry) : option (list (gmap string string)) :=
  article_info ← article_of e; AuthorList article_info.

(** the journal issue's publication year, when every step to it exists *)
Definition pub_year (article_info : article) : option string :=
  j ← Journal article_info; issue ← JournalIssue j; date ← PubDate issue;
  date !! "Year".

(** line 192: the search term *)
Definition query (a : args) : string := author a +:+ "[Author]".

(** lines 210-213: the [retmax] that [main] asks the search for in [w] *)
Definition requested_retmax (a : args) (w : world) : Z :=
  if bool_decide (String.length (content w papers_path) ≠ 0%nat) then max a
  else if bool_decide (max a ≠ 0) then max a else 100.

(** a world in which both files exist and every identifier of [ids] is known *)
Definition settled (ids : list string) (w : world) : Prop :=
  is_Some (files w !! papers_path) ∧
  (ids ≠ [] → is_Some (files w !! ids_path) ∧ ∀ i, i ∈ ids → i ∈ known_ids w).

(** ** Sample data *)

Definition author_dict (l f : string) : gmap string string :=
  {[ "LastName" := l; "ForeName" := f ]}.

Definition sample_issue (volume number : option string) : journal_issue :=
  {| Volume := volume; Issue := number; PubDate := Some {[ "Year" := "2018" ]} |}.

Definition sample_journal (issue : option journal_issue) : journal :=
  {| ISOAbbreviation := Some "Nature"; JournalIssue := issue |}.

Definition sample_article (j : journal) (t : option string) : article :=
  {| AuthorList := Some [author_dict "Tran" "Lina"; author_dict "Doe" "Jane"];
     Abstract := None;
     ArticleDate := Some [];
     ArticleTitle := t;
     Pagination := Some {[ "MedlinePgn" := "1-9" ]};
     Journal := Some j;
     ELocationID := Some ["10.1/x"] |}.

Definition entry_of (article_info : article) : pubmed_entry :=
  {| MedlineCitation := Some {| Article := Some article_info |} |}.

Definition sample_entry : pubmed_entry :=
  entry_of (sample_article (sample_journal (Some (sample_issue (Some "12") (Some "3"))))
              (Some "A title")).

(** an entry without its title *)
Definition untitled_entry : pubmed_entry :=
  entry_of (sample_article (sample_journal (Some (sample_issue (Some "12") (Some "3"))))
              None).

(** an entry whose journal issue has no volume yet *)
Definition unbound_entry : pubmed_entry :=
  entry_of (sample_article (sample_journal (Some (sample_issue None None)))
              (Some "A title")).

Definition dated_article (dates : list (gmap string string)) (j : option journal)
    : article :=
  {| AuthorList := None; Abstract := None; ArticleDate := Some dates;
     ArticleTitle := None; Pagination := None; Journal := j; ELocationID := None |}.

(** a service that finds [found] and returns [e] for every identifier asked *)
Definition sample_entrez (found : list string) (e : pubmed_entry) : entrez :=
  {| esearch := λ _ _ _, Ok found;
     efetch := λ _ ids, Ok ((λ _, e) <$> split comma ids) |}.

Definition sample_args (max : Z) (verbose do_not_populate : bool) : args :=
  {| email := "me@example.org"; author := "Tran L"; max := max;
     verbose := verbose; do_not_populate := do_not_populate |}.

Definition no_files : world := {| files := ∅; trace := [] |}.

Definition some_files : world :=
  {| files := {[ ids_path := "1"; papers_path := "- author: Old." ]}; trace := [] |}.

Definition sample_yml : string :=
  format_yml "Tran, Lina, Doe, Jane." "A title" "Nature, 12, 3, 1-9"
    "https://doi.org/10.1/x" "2018".

(** [w'] holds the bytes of [w]: every file has the content it had, and a
    file that existed is as it was *)
Definition same_bytes (w w' : world) : Prop :=
  (∀ path, content w' path = content w path) ∧
  (∀ path s, files w !! path = Some s → files w' !! path = Some s).

(** a computation that changes the bytes of no file *)
Definition read_only {A : Type} (m : M A) : Prop := ∀ w, same_bytes w (m w).2.

(** ** Further observations *)

Definition is_search (e : event) : bool :=
  match e with ESearch _ _ => true | _ => false end.

Definition is_fetch (e : event) : bool :=
  match e with EFetch _ => true | _ => false end.

(** a computation all of whose events satisfy [P] *)
Definition emits {A : Type} (P : event → Prop) (m : M A) : Prop :=
  ∀ w, ∃ t, trace (m w).2 = trace w ++ t ∧ Forall P t.

(** lines 217-220 of [main]: the block under [if args.verbose] *)
Definition verbose_block (E : entrez) (a : args) (ids : list string) : M unit :=
  if verbose a then
    papers ← fetch_new_papers E ids (email a) (verbose a);
    match papers with
    | Some papers => _ ← mapM print papers; mret ()
    | None => lift (Raise TypeError)
    end
  else mret ().

(** lines 221-225 of [main]: the block under [if not args.do_not_populate] *)
Definition populate_block (E : entrez) (a : args) (ids : list string) : M unit :=
  if negb (do_not_populate a) then
    papers ← fetch_new_papers E ids (email a) false;
    match papers with
    | Some papers =>
        _ ← add_new_papers papers;
        print ("Added " +:+ pretty (length papers) +:+ " new papers.")
    | None => mret ()
    end
  else mret ().

(** what [Paper.__init__] reads without a guard *)
Definition has_names (author_info : gmap string string) : Prop :=
  is_Some (author_info !! "LastName") ∧ is_Some (author_info !! "ForeName").

Definition authors_ok (authors : list (gmap string string)) : Prop :=
  if decide (length authors < 3)%nat then Forall has_names authors
  else match authors with
       | a :: _ => has_names a
       | [] => False
       end.

Definition dates_ok (dates : list (gmap string string)) : Prop :=
  match dates with
  | d :: _ => is_Some (d !! "Year")
  | [] => True
  end.

Definition journal_ok (j : journal) (pagination : option (gmap string string)) : Prop :=
  is_Some (ISOAbbreviation j) ∧
  match JournalIssue j with
  | None => True
  | Some issue =>
      is_Some (Volume issue) ∧
      (truthy pagination = true → is_Some (Issue issue) →
       is_Some (default ∅ pagination !! "MedlinePgn"))
  end.

Definition parses (e : pubmed_entry) : Prop :=
  ∃ article_info authors dates j,
    article_of e = Some article_info ∧
    AuthorList article_info = Some authors ∧ authors_ok authors ∧
    ArticleDate article_info = Some dates ∧ dates_ok dates ∧
    is_Some (ArticleTitle article_info) ∧
    Journal article_info = Some j ∧ journal_ok j (Pagination article_info) ∧
    is_Some (ELocationID article_info).

(** the long form that verbose mode prints for an entry that parses *)
Definition long_print_of (e : pubmed_entry) : string :=
  match Paper_fields e with
  | Ok p => long_print p
  | Raise _ => ""
  end.

(** ** Readings that follow the specification's words

    Not what the program computes: what the specification names, to be
    compared with it. *)

(** the years of the article dates that carry one *)
Definition listed_years (dates : list (gmap string string)) : list string :=
  omap (λ d, d !! "Year") dates.

(** the earliest of the listed years, years of four digits being ordered as
    their strings are *)
Definition earliest_year (dates : list (gmap string string)) : option string :=
  foldr (λ y acc, match acc with
                  | None => Some y
                  | Some z => Some (if String.leb y z then y else z)
                  end) None (listed_years dates).

(** two article dates, the later one listed first *)
Definition two_dates : list (gmap string string) :=
  [{[ "Year" := "2018" ]}; {[ "Year" := "2017" ]}].

(** a store whose two lines end in a carriage return and a line feed *)
Definition crlf_store : string :=
  "- author: Old." +:+ String carriage_return (String line_feed "")
  +:+ "  year: 2001" +:+ String carriage_return (String line_feed "").

Definition crlf_files : world :=
  {| files := {[ ids_path := "1"; papers_path := crlf_store ]}; trace := [] |}.

(** the world that the docstring's usage line, [--max 10 -v -d], leaves when
    run where neither file exists, the search finding "1" and "2" *)
Definition dry_run_world : world :=
  (main (sample_entrez ["1"; "2"] sample_entry) (sample_args 10 true true) no_files).2.
(** ** Facts about [join] and [split] *)

Lemma append_String (a : ascii) (s t : string) : String a s +:+ t = String a (s +:+ t).
Proof. reflexivity. Qed.

Lemma append_nil_l (s : string) : "" +:+ s = s.
Proof. reflexivity. Qed.

Lemma append_nil_r (s : string) : s +:+ "" = s.
Proof. induction s as [|a s IH]; [done |]. by rewrite append_String, IH. Qed.

Lemma append_assoc (s t u : string) : (s +:+ t) +:+ u = s +:+ t +:+ u.
Proof. induction s as [|a s IH]; [done |]. by rewrite !append_String, IH. Qed.

Lemma join_cons (sep x : string) (l : list string) :
  l ≠ [] → join sep (x :: l) = x +:+ sep +:+ join sep l.
Proof. by destruct l. Qed.

Lemma join_app (sep : string) (l k : list string) :
  l ≠ [] → k ≠ [] → join sep (l ++ k) = join sep l +:+ sep +:+ join sep k.
Proof.
  intros Hl Hk. induction l as [|x l IH]; [done |].
  destruct l as [|y l].
  - simpl app. by rewrite join_cons.
  - rewrite <- app_comm_cons, join_cons by done.
    rewrite IH by done. rewrite (join_cons sep x (y :: l)) by done.
    by rewrite !append_assoc.
Qed.

Lemma split_not_nil (c : ascii) (s : string) : split c s ≠ [].
Proof.
  induction s as [|a s IH]; simpl; [done |].
  case_decide; [done |]. by destruct (split c s).
Qed.

Lemma join_split (c : ascii) (s : string) : join (String c "") (split c s) = s.
Proof.
  induction s as [|a s IH]; simpl; [done |].
  case_decide as Hc.
  - subst a. rewrite join_cons by apply split_not_nil.
    by rewrite append_nil_l, append_String, append_nil_l, IH.
  - pose proof (split_not_nil c s) as Hne.
    destruct (split c s) as [|h t]; [done |].
    destruct t as [|h' t].
    + simpl in *. by rewrite IH.
    + rewrite join_cons in IH |- * by done.
      by rewrite append_String, IH.
Qed.

Lemma split_free (c : ascii) (s : string) : free_of c s → split c s = [s].
Proof.
  induction s as [|a s IH]; simpl; [done |].
  intros [Ha Hs]. rewrite decide_False by done. by rewrite IH.
Qed.

Lemma split_app_sep (c : ascii) (s t : string) :
  free_of c s → split c (s +:+ String c t) = s :: split c t.
Proof.
  induction s as [|a s IH].
  - intros _. rewrite append_nil_l. simpl. by rewrite decide_True.
  - intros [Ha Hs]. rewrite append_String. simpl.
    rewrite decide_False by done. by rewrite IH.
Qed.

Lemma split_join (c : ascii) (l : list string) :
  l ≠ [] → Forall (free_of c) l → split c (join (String c "") l) = l.
Proof.
  induction l as [|x l IH]; [done |].
  intros _ Hall. apply Forall_cons in Hall as [Hx Hl].
  destruct l as [|y l].
  - simpl. by apply split_free.
  - rewrite join_cons by done. rewrite append_String, append_nil_l.
    rewrite split_app_sep by done. by rewrite IH.
Qed.

Lemma split_Forall_free (c : ascii) (s : string) : Forall (free_of c) (split c s).
Proof.
  induction s as [|a s IH]; simpl; [by repeat constructor |].
  case_decide as Hc; [by constructor |].
  destruct (split c s) as [|h t]; [by repeat constructor |].
  apply Forall_cons in IH as [Hh Ht]. by constructor.
Qed.

(** ** Facts about text-mode reading *)

Lemma universal_newlines_nil (s : string) : universal_newlines s = "" ↔ s = "".
Proof.
  split; [| by intros ->].
  destruct s as [|a r]; [done |]. unfold universal_newlines. simpl.
  repeat case_decide; done.
Qed.

Lemma universal_newlines_length (s : string) :
  bool_decide (String.length (universal_newlines s) ≠ 0%nat)
  = bool_decide (String.length s ≠ 0%nat).
Proof.
  destruct s as [|a r]; [done |]. unfold universal_newlines. simpl.
  repeat case_decide; done.
Qed.

Lemma universal_newlines_free (s : string) :
  free_of carriage_return s → universal_newlines s = s.
Proof.
  unfold universal_newlines. induction s as [|a r IH]; [done |].
  intros [Ha Hr]. simpl. rewrite decide_False by done.
  case_decide; subst; by rewrite IH.
Qed.

Lemma translate_newlines_free (b : bool) (s : string) :
  free_of carriage_return (translate_newlines b s).
Proof.
  revert b. induction s as [|a r IH]; intros b; simpl; [done |].
  case_decide; [by split |].
  case_decide; [destruct b; [done | by split] |]. by split.
Qed.

Lemma universal_newlines_idemp (s : string) :
  universal_newlines (universal_newlines s) = universal_newlines s.
Proof. apply universal_newlines_free, translate_newlines_free. Qed.

Lemma translate_newlines_app_sep (b : bool) (c : ascii) (s t : string) :
  c ≠ carriage_return → c ≠ line_feed →
  translate_newlines b (s +:+ String c t)
  = translate_newlines b s +:+ String c (translate_newlines false t).
Proof.
  intros Hcr Hlf. revert b. induction s as [|a r IH]; intros b.
  - rewrite append_nil_l. simpl. by rewrite !decide_False by done.
  - rewrite append_String. simpl.
    repeat case_decide; try destruct b; by rewrite ?append_String, IH.
Qed.

Lemma free_of_app (c : ascii) (s t : string) :
  free_of c (s +:+ t) ↔ free_of c s ∧ free_of c t.
Proof.
  induction s as [|a r IH]; [rewrite append_nil_l; simpl; tauto |].
  rewrite append_String. simpl. tauto.
Qed.

Lemma free_of_join (c : ascii) (sep : string) (l : list string) :
  free_of c sep → Forall (free_of c) l → free_of c (join sep l).
Proof.
  intros Hsep. induction l as [|x l IH]; [done |].
  intros Hall. apply Forall_cons in Hall as [Hx Hl].
  destruct l as [|y l]; [done |].
  rewrite join_cons by done. rewrite !free_of_app. auto.
Qed.

Lemma free_of_split (c' c : ascii) (s : string) :
  free_of c' s → Forall (free_of c') (split c s).
Proof.
  induction s as [|a r IH]; simpl; [by repeat constructor |].
  intros [Ha Hr]. specialize (IH Hr).
  case_decide; [by constructor |].
  destruct (split c r) as [|h t]; [by repeat constructor |].
  apply Forall_cons in IH as [Hh Ht]. by constructor.
Qed.

(** ** The delta of new identifiers *)

Lemma ids_new_free (c : ascii) (ids previous_ids : list string) :
  Forall (free_of c) ids → Forall (free_of c) (ids_new ids previous_ids).
Proof.
  rewrite !Forall_forall. intros H i Hi.
  apply list_elem_of_filter in Hi as [_ Hi]. by apply H.
Qed.

Lemma ids_new_nil_inv (ids previous_ids : list string) :
  ids_new ids previous_ids = [] → ∀ i, i ∈ ids → i ∈ previous_ids.
Proof.
  unfold ids_new. intros Hnil i Hi.
  destruct (decide (i ∈ previous_ids)) as [|Hn]; [done |].
  by destruct (filter_nil_not_elem_of _ _ i Hnil Hn).
Qed.

Lemma ids_new_all (ids previous_ids : list string) :
  (∀ i, i ∈ ids → i ∈ previous_ids) → ids_new ids previous_ids = [].
Proof.
  unfold ids_new. intros Hall. induction ids as [|i ids IH]; [done |].
  rewrite filter_cons_False by (intros Hn; apply Hn, Hall; left).
  apply IH. intros j Hj. apply Hall. by right.
Qed.

Lemma ids_new_disjoint (ids previous_ids : list string) :
  (∀ i, i ∈ ids → i ∉ previous_ids) → ids_new ids previous_ids = ids.
Proof.
  unfold ids_new. intros Hall. induction ids as [|i ids IH]; [done |].
  rewrite filter_cons_True by (apply Hall; left).
  f_equal. apply IH. intros j Hj. apply Hall. by right.
Qed.

Lemma ids_new_none (ids : list string) : ids_new ids [] = ids.
Proof. apply ids_new_disjoint. intros i _. apply not_elem_of_nil. Qed.

Lemma all_ids_elem (ids previous_ids : list string) (i : string) :
  i ∈ all_ids ids previous_ids ↔ i ∈ ids ∨ i ∈ previous_ids.
Proof.
  unfold all_ids, ids_new. rewrite elem_of_app, list_elem_of_filter.
  destruct (decide (i ∈ previous_ids)); tauto.
Qed.

(** C3: the delta holds exactly the candidates that are not known, in the
    candidates' order: membership is "candidate and not known", the delta is
    a subsequence of the candidates, it is computed candidate by candidate
    (so order and repetitions are those of the candidates), it is the whole
    candidate list when none is known and empty when all are. *)
Theorem ids_new_exact (ids previous_ids : list string) :
  (∀ i, i ∈ ids_new ids previous_ids ↔ i ∈ ids ∧ i ∉ previous_ids) ∧
  ids_new ids previous_ids `sublist_of` ids ∧
  (∀ l k, ids = l ++ k →
     ids_new ids previous_ids = ids_new l previous_ids ++ ids_new k previous_ids) ∧
  (∀ i, ids_new [i] previous_ids = if decide (i ∈ previous_ids) then [] else [i]) ∧
  ((∀ i, i ∈ ids → i ∉ previous_ids) → ids_new ids previous_ids = ids) ∧
  ((∀ i, i ∈ ids → i ∈ previous_ids) → ids_new ids previous_ids = []).
Proof.
  split_and!.
  - intros i. unfold ids_new. rewrite list_elem_of_filter. tauto.
  - apply sublist_filter.
  - intros l k ->. apply filter_app.
  - intros i. unfold ids_new. rewrite filter_cons, filter_nil.
    destruct (decide (i ∈ previous_ids)), (decide (i ∉ previous_ids)); done.
  - apply ids_new_disjoint.
  - apply ids_new_all.
Qed.

Lemma ids_new_exact_witness :
  ids_new ["3"; "4"] ["1"; "2"] = ["3"; "4"] ∧
  ids_new ["2"; "1"] ["1"; "2"] = [].
Proof.
  split.
  - apply (proj1 (proj2 (proj2 (proj2 (proj2 (ids_new_exact ["3"; "4"] ["1"; "2"])))))).
    intros i Hi Hp. apply list_elem_of_In in Hi, Hp. simpl in Hi, Hp.
    destruct Hi as [<-|[<-|[]]]; destruct Hp as [?|[?|[]]]; discriminate.
  - apply (proj2 (proj2 (proj2 (proj2 (proj2 (ids_new_exact ["2"; "1"] ["1"; "2"])))))).
    intros i Hi. apply list_elem_of_In in Hi. simpl in Hi.
    apply list_elem_of_In. simpl. tauto.
Defined.

(** ** Authors, year and journal issue of one entry *)

Lemma parse_author_named (author_info : gmap string string) (lf : string * string) :
  named author_info lf → parse_author author_info = Ok (last_first lf).
Proof.
  intros [Hl Hf]. unfold parse_author, getitem. rewrite Hl. cbn. by rewrite Hf.
Qed.

Lemma mapM_parse_author (authors : list (gmap string string))
    (names : list (string * string)) :
  Forall2 named authors names → mapM parse_author authors = Ok (last_first <$> names).
Proof.
  induction 1 as [|a lf authors names Ha _ IH]; [done |].
  cbn. rewrite (parse_author_named a lf Ha). cbn.
  cbn in IH. by rewrite IH.
Qed.

Lemma parse_author_inv (author_info : gmap string string) (s : string) :
  parse_author author_info = Ok s → ∃ lf, named author_info lf ∧ s = last_first lf.
Proof.
  unfold parse_author, getitem, named. intros H.
  destruct (author_info !! "LastName") as [l|]; [|done]. cbn in H.
  destruct (author_info !! "ForeName") as [f|]; [|done]. cbn in H.
  injection H as <-. by exists (l, f).
Qed.

Lemma mapM_parse_author_inv (authors : list (gmap string string)) (l : list string) :
  mapM parse_author authors = Ok l →
  ∃ names, Forall2 named authors names ∧ l = last_first <$> names.
Proof.
  revert l. induction authors as [|a authors IH]; intros l H.
  - injection H as <-. by exists [].
  - cbn in H. destruct (parse_author a) as [s|] eqn:Ha; [|done]. cbn in H.
    destruct (mapM parse_author authors) as [k|] eqn:Hk; [|done]. cbn in H.
    injection H as <-.
    apply parse_author_inv in Ha as (lf & Hlf & ->).
    destruct (IH k eq_refl) as (names & Hnames & ->).
    exists (lf :: names). split; [by constructor | done].
Qed.

Lemma Paper_fields_inv (e : pubmed_entry) (p : Paper) :
  Paper_fields e = Ok p →
  ∃ article_info authors j,
    article_of e = Some article_info ∧
    AuthorList article_info = Some authors ∧
    Journal article_info = Some j ∧
    author_display authors = Ok (first_author p) ∧
    resolve_year article_info = Ok (year p) ∧
    parse_journal j (Pagination article_info) = Ok (journal_info p) ∧
    ArticleTitle article_info = Some (title p).
Proof.
  unfold Paper_fields, article_of. intros H.
  destruct (MedlineCitation e) as [cit|]; [|done]. cbn in H |- *.
  destruct (Article cit) as [art|]; [|done]. cbn in H |- *.
  destruct (AuthorList art) as [authors|] eqn:Hau; [|done]. cbn in H.
  destruct (author_display authors) as [fa|] eqn:Hfa; [|done]. cbn in H.
  destruct (resolve_year art) as [y|] eqn:Hy; [|done]. cbn in H.
  destruct (ArticleTitle art) as [t|] eqn:Ht; [|done]. cbn in H.
  destruct (Journal art) as [j|] eqn:Hj; [|done]. cbn in H.
  destruct (parse_journal j (Pagination art)) as [ji|] eqn:Hji; [|done]. cbn in H.
  destruct (ELocationID art) as [el|] eqn:Hel; [|done]. cbn in H.
  injection H as <-. cbn. by exists art, authors, j.
Qed.

(** C6: with fewer than three authors the display joins every author as
    "Last, Fore" with ", " and ends with a period; with three or more it is
    the first author as "Last, Fore" followed by " et al."; and the
    [first_author] of every parsed entry is this display, of one form or
    the other by the number of its authors. *)
Theorem author_rendering (authors : list (gmap string string)) :
  (∀ names, (length authors < 3)%nat → Forall2 named authors names →
     author_display authors = Ok (join ", " (last_first <$> names) +:+ ".")) ∧
  (∀ a rest lf, authors = a :: rest → (3 ≤ length authors)%nat → named a lf →
     author_display authors = Ok (last_first lf +:+ " et al.")) ∧
  (∀ e p, authors_of e = Some authors → Paper_fields e = Ok p →
     author_display authors = Ok (first_author p) ∧
     if decide (length authors < 3)%nat then
       ∃ names, Forall2 named authors names ∧
                first_author p = join ", " (last_first <$> names) +:+ "."
     else
       ∃ a rest lf, authors = a :: rest ∧ named a lf ∧
                    first_author p = last_first lf +:+ " et al.").
Proof.
  split_and!.
  - intros names Hlen Hnamed. unfold author_display.
    rewrite decide_True by done.
    by rewrite (mapM_parse_author _ _ Hnamed).
  - intros a rest lf -> Hlen Ha. unfold author_display.
    rewrite decide_False by lia.
    by rewrite (parse_author_named a lf Ha).
  - intros e p Hau Hp.
    apply Paper_fields_inv in Hp as (art & authors' & j & Hart & Hau' & _ & Hd & _).
    unfold authors_of in Hau. rewrite Hart in Hau. cbn in Hau.
    assert (authors' = authors) as -> by congruence.
    split; [done |]. unfold author_display in Hd.
    destruct (decide (length authors < 3)%nat) as [Hlen | Hlen].
    + destruct (mapM parse_author authors) as [l|] eqn:Hl; [|done]. cbn in Hd.
      injection Hd as <-.
      apply mapM_parse_author_inv in Hl as (names & Hnames & ->). by exists names.
    + destruct authors as [|a rest]; [done |].
      destruct (parse_author a) as [s|] eqn:Ha; [|done]. cbn in Hd.
      injection Hd as <-.
      apply parse_author_inv in Ha as (lf & Hlf & ->). by exists a, rest, lf.
Qed.

Lemma author_rendering_witness :
  author_display [] = Ok "." ∧
  author_display [author_dict "Tran" "Lina"; author_dict "Doe" "Jane"]
    = Ok "Tran, Lina, Doe, Jane." ∧
  author_display [author_dict "Tran" "Lina"; author_dict "Doe" "Jane"; ∅]
    = Ok "Tran, Lina et al.".
Proof.
  split_and!.
  - apply (proj1 (author_rendering []) []); [simpl; lia | constructor].
  - apply (proj1 (author_rendering _) [("Tran", "Lina"); ("Doe", "Jane")]);
      [simpl; lia | by repeat constructor].
  - apply (proj1 (proj2 (author_rendering _)) _ _ ("Tran", "Lina") eq_refl);
      [simpl; lia | by split].
Defined.

Lemma journal_year_pub_year (article_info : article) :
  match pub_year article_info with
  | Some y => journal_year article_info = Ok y
  | None => ∃ key, journal_year article_info = Raise (KeyError key)
  end.
Proof.
  unfold journal_year, pub_year, getitem.
  destruct (Journal article_info) as [j|]; [|by eexists]. cbn.
  destruct (JournalIssue j) as [issue|]; [|by eexists]. cbn.
  destruct (PubDate issue) as [date|]; [|by eexists]. cbn.
  destruct (date !! "Year"); [done | by eexists].
Qed.

(** C8, amended statement: the year is resolved in this order.  With an
    article-date list that is not empty it is the year of the first listed
    date, whichever date is the earliest, and a first date without a year
    raises [KeyError], as does an article without the list: line 85 is
    outside the [try].  With an empty list it is the journal issue's
    publication year, else the empty string, whatever is missing on the way
    to that year: this fallback never raises.  The [year] of every parsed
    entry is this value. *)
Theorem year_resolution (article_info : article) :
  resolve_year article_info
  = match ArticleDate article_info with
    | None => Raise (KeyError "ArticleDate")
    | Some (d :: _) =>
        match d !! "Year" with
        | Some y => Ok y
        | None => Raise (KeyError "Year")
        end
    | Some [] => Ok (default "" (pub_year article_info))
    end
  ∧ (∀ e p, article_of e = Some article_info → Paper_fields e = Ok p →
       resolve_year article_info = Ok (year p) ∧
       match ArticleDate article_info with
       | None => False
       | Some (d :: _) => d !! "Year" = Some (year p)
       | Some [] => year p = default "" (pub_year article_info)
       end).
Proof.
  assert (resolve_year article_info
          = match ArticleDate article_info with
            | None => Raise (KeyError "ArticleDate")
            | Some (d :: _) =>
                match d !! "Year" with
                | Some y => Ok y
                | None => Raise (KeyError "Year")
                end
            | Some [] => Ok (default "" (pub_year article_info))
            end) as Hyear.
  { unfold resolve_year, getitem.
    destruct (ArticleDate article_info) as [[|d rest]|]; cbn; [| done | done].
    pose proof (journal_year_pub_year article_info) as Hj.
    destruct (pub_year article_info); [by rewrite Hj |].
    destruct Hj as [key ->]. done. }
  split; [exact Hyear |].
  intros e p Hart Hp.
  apply Paper_fields_inv in Hp as (art & _ & _ & Hart' & _ & _ & _ & Hy & _).
  assert (art = article_info) as -> by congruence.
  split; [done |]. rewrite Hyear in Hy.
  destruct (ArticleDate article_info) as [[|d rest]|]; [| | done].
  - by injection Hy.
  - by destruct (d !! "Year"); [injection Hy as -> |].
Qed.

Lemma year_resolution_witness :
  resolve_year (dated_article two_dates None) = Ok "2018" ∧
  resolve_year (dated_article [∅] None) = Raise (KeyError "Year") ∧
  resolve_year (dated_article [] (Some (sample_journal (Some (sample_issue None None)))))
    = Ok "2018" ∧
  resolve_year (dated_article [] (Some (sample_journal None))) = Ok "".
Proof.
  split_and!.
  - by rewrite (proj1 (year_resolution _)).
  - by rewrite (proj1 (year_resolution _)).
  - by rewrite (proj1 (year_resolution _)).
  - by rewrite (proj1 (year_resolution _)).
Defined.

(** C8, counterexample to the statement of the specification: of two
    article dates the later of which is listed first the program takes the
    first, not the earliest; and a first date without a year makes the
    resolution raise. *)
Lemma year_is_first_listed :
  earliest_year two_dates = Some "2017" ∧
  ¬ (∀ y, earliest_year two_dates = Some y →
          resolve_year (dated_article two_dates None) = Ok y) ∧
  resolve_year (dated_article two_dates None) = Ok "2018" ∧
  resolve_year (dated_article [∅] None) = Raise (KeyError "Year").
Proof.
  split_and!; [done | | done | done].
  intros H. by specialize (H "2017" eq_refl).
Qed.

(** X2: the tiers of the journal issue, for an entry that has every field a
    tier reads: the abbreviation alone without a journal issue; abbreviation
    and volume without pagination or without an issue number; abbreviation,
    volume, issue number and page range otherwise. *)
Lemma parse_journal_tiers (abbrev : string) (j : journal)
    (pagination : option (gmap string string)) :
  ISOAbbreviation j = Some abbrev →
  (JournalIssue j = None → parse_journal j pagination = Ok abbrev) ∧
  (∀ issue volume, JournalIssue j = Some issue → Volume issue = Some volume →
     truthy pagination = false ∨ Issue issue = None →
     parse_journal j pagination = Ok (abbrev +:+ ", " +:+ volume)) ∧
  (∀ issue volume number d pgn, JournalIssue j = Some issue →
     Volume issue = Some volume → Issue issue = Some number →
     pagination = Some d → d !! "MedlinePgn" = Some pgn →
     parse_journal j pagination
       = Ok (abbrev +:+ ", " +:+ volume +:+ ", " +:+ number +:+ ", " +:+ pgn)).
Proof.
  intros Habbrev. unfold parse_journal. rewrite Habbrev. cbn. split_and!.
  - by intros ->.
  - intros issue volume -> Hv Hnone. rewrite Hv.
    destruct Hnone as [-> | ->]; [done |].
    by rewrite andb_false_r.
  - intros issue volume number d pgn -> Hv Hi -> Hp.
    assert (truthy (Some d) = true) as ->.
    { cbn. apply bool_decide_eq_true. intros ->. by rewrite lookup_empty in Hp. }
    rewrite Hv, Hi. cbn. unfold getitem. by rewrite Hp.
Qed.

(** C7: a journal with an abbreviation and a journal issue that has no
    volume makes [parse_journal] raise [KeyError "Volume"], with or without
    pagination, and with it the whole [Paper]. *)
Theorem parse_journal_missing_volume :
  parse_journal (sample_journal (Some (sample_issue None None))) None
    = Raise (KeyError "Volume") ∧
  parse_journal (sample_journal (Some (sample_issue None (Some "3"))))
      (Some {[ "MedlinePgn" := "1-9" ]})
    = Raise (KeyError "Volume") ∧
  Paper_fields unbound_entry = Raise (KeyError "Volume").
Proof. split_and!; reflexivity. Qed.

(** ** Running the effectful code *)

Lemma bind_run {A B : Type} (m : M A) (f : A → M B) (w : world) :
  (m ≫= f) w =
    match m w with
    | (Ok a, w') => f a w'
    | (Raise e, w') => (Raise e, w')
    end.
Proof. reflexivity. Qed.

Lemma bind_Ok {A B : Type} (m : M A) (f : A → M B) (w w' : world) (a : A) :
  m w = (Ok a, w') → (m ≫= f) w = f a w'.
Proof. intros H. by rewrite bind_run, H. Qed.

Lemma world_eta (w : world) : {| files := files w; trace := trace w |} = w.
Proof. by destruct w. Qed.

Lemma files_log (e : event) (w : world) : files (log e w) = files w.
Proof. reflexivity. Qed.

Lemma paths_differ : papers_path ≠ ids_path.
Proof. done. Qed.

Lemma ensured_lookup (path : string) (w : world) :
  files (ensured path w) !! path = Some (content w path).
Proof.
  unfold ensured, content. destruct (files w !! path) eqn:H; simpl; [done |].
  by rewrite lookup_insert_eq.
Qed.

Lemma ensured_content (path p : string) (w : world) :
  content (ensured path w) p = content w p.
Proof.
  unfold ensured, content. destruct (files w !! path) eqn:H; simpl; [done |].
  destruct (decide (path = p)) as [<-|Hne].
  - by rewrite lookup_insert_eq, H.
  - by rewrite lookup_insert_ne.
Qed.

Lemma ensured_lookup_Some (path p s : string) (w : world) :
  files w !! p = Some s → files (ensured path w) !! p = Some s.
Proof.
  unfold ensured. destruct (files w !! path) eqn:H; simpl; [done |].
  intros Hp. rewrite lookup_insert_ne; [done | congruence].
Qed.

Lemma ensured_lookup_ne (path p : string) (w : world) :
  path ≠ p → files (ensured path w) !! p = files w !! p.
Proof.
  intros Hne. unfold ensured. destruct (files w !! path); simpl; [done |].
  by rewrite lookup_insert_ne.
Qed.

Lemma ensured_insert (path v : string) (w : world) :
  <[path := v]> (files (ensured path w)) = <[path := v]> (files w).
Proof.
  unfold ensured. destruct (files w !! path); simpl; [done |].
  by rewrite insert_insert_eq.
Qed.

Lemma ensured_id (path : string) (w : world) :
  is_Some (files w !! path) → ensured path w = w.
Proof. intros [s Hs]. unfold ensured. by rewrite Hs. Qed.

Lemma ensured_files_log (path : string) (e : event) (w : world) :
  files (ensured path (log e w)) = files (ensured path w).
Proof. unfold ensured. rewrite files_log. by destruct (files w !! path). Qed.

Lemma ensured_trace (path : string) (w : world) :
  ∃ t, trace (ensured path w) = trace w ++ t ∧ Forall (λ e, is_write e = false) t.
Proof.
  unfold ensured. destruct (files w !! path); simpl.
  - exists []. by rewrite app_nil_r.
  - exists [EOpenW path]. by repeat constructor.
Qed.

Lemma known_ids_ext (w' w : world) :
  files w' !! ids_path = files w !! ids_path → known_ids w' = known_ids w.
Proof. unfold known_ids. by intros ->. Qed.

Lemma known_ids_free (w : world) : Forall (free_of comma) (known_ids w).
Proof.
  unfold known_ids. destruct (files w !! ids_path); [apply split_Forall_free | done].
Qed.

Lemma known_ids_free_cr (w : world) : Forall (free_of carriage_return) (known_ids w).
Proof.
  unfold known_ids. destruct (files w !! ids_path); [| done].
  apply free_of_split, translate_newlines_free.
Qed.

Lemma known_ids_ensured_papers (w : world) (e : event) :
  known_ids (log e (ensured papers_path w)) = known_ids w.
Proof.
  apply known_ids_ext. rewrite files_log. apply ensured_lookup_ne, paths_differ.
Qed.

(** what the next run reads back from a record just written *)
Lemma known_ids_written (ids : list string) (w w' : world) :
  Forall (free_of comma) ids →
  Forall (free_of carriage_return) ids →
  ids_new ids (known_ids w) ≠ [] →
  files w' !! ids_path = Some (join "," (all_ids ids (known_ids w))) →
  known_ids w' = all_ids ids (known_ids w).
Proof.
  intros Hfree Hcr Hne Hfile. unfold known_ids at 1. rewrite Hfile.
  rewrite universal_newlines_free.
  2:{ apply free_of_join; [by split |]. unfold all_ids. apply Forall_app. split.
      - by apply ids_new_free.
      - apply known_ids_free_cr. }
  apply (split_join comma).
  - unfold all_ids. by destruct (ids_new ids (known_ids w)).
  - unfold all_ids. apply Forall_app. split.
    + by apply ids_new_free.
    + apply known_ids_free.
Qed.

Lemma load_previous_ids_run (w : world) :
  load_previous_ids w = (Ok (known_ids w), ensured ids_path w).
Proof.
  unfold load_previous_ids, try_except_IOError, known_ids, ensured, mbind, M_bind,
    read_file.
  by destruct (files w !! ids_path).
Qed.

Lemma load_current_papers_run (w : world) :
  load_current_papers w
  = (Ok (universal_newlines (content w papers_path)), ensured papers_path w).
Proof.
  unfold load_current_papers, try_except_IOError, content, ensured, mbind, M_bind,
    read_file.
  by destruct (files w !! papers_path).
Qed.

Lemma mapM_cons_run {A B : Type} (g : A → M B) (x : A) (l : list A) (w : world) :
  mapM g (x :: l) w =
    match g x w with
    | (Ok y, w') =>
        match mapM g l w' with
        | (Ok k, w'') => (Ok (y :: k), w'')
        | (Raise e, w'') => (Raise e, w'')
        end
    | (Raise e, w') => (Raise e, w')
    end.
Proof. reflexivity. Qed.

Lemma render_cons (f : Paper → string) (e : pubmed_entry) (l : list pubmed_entry) :
  render f (e :: l) =
    match Paper_fields e with
    | Ok p => match render f l with Ok k => Ok (f p :: k) | Raise err => Raise err end
    | Raise err => Raise err
    end.
Proof. unfold render. simpl. unfold mbind, result_bind. by destruct (Paper_fields e). Qed.

Lemma Paper_init_run (f : Paper → string) (e : pubmed_entry) (w : world) :
  (p ← Paper_init e; mret (f p)) w =
    match Paper_fields e with
    | Ok p =>
        (Ok (f p),
         log (EPrint (join " " [first_author p; title p; link p; journal_info p])) w)
    | Raise err => (Raise err, w)
    end.
Proof.
  unfold Paper_init, mbind, M_bind, lift. by destruct (Paper_fields e).
Qed.

(** Parsing a batch prints and nothing else; its value is [render]'s. *)
Lemma mapM_Paper_init (f : Paper → string) (results : list pubmed_entry) (w : world) :
  ∃ t, Forall (λ e, is_print e = true) t ∧
    mapM (λ i, p ← Paper_init i; mret (f p)) results w
      = (render f results, {| files := files w; trace := trace w ++ t |}).
Proof.
  revert w. induction results as [|e results IH]; intros w.
  - exists []. split; [done |]. rewrite app_nil_r. by rewrite world_eta.
  - rewrite mapM_cons_run, Paper_init_run, render_cons.
    destruct (Paper_fields e) as [p|err] eqn:Hp.
    + destruct (IH (log (EPrint (join " " [first_author p; title p; link p; journal_info p])) w))
        as (t & Ht & ->).
      exists (EPrint (join " " [first_author p; title p; link p; journal_info p]) :: t).
      split; [by constructor |]. simpl. rewrite <- app_assoc. simpl.
      by destruct (render f results).
    + exists []. split; [done |]. by rewrite app_nil_r, world_eta.
Qed.

Lemma render_malformed (f : Paper → string) (results : list pubmed_entry) :
  Exists malformed results → ∃ err, render f results = Raise err.
Proof.
  induction 1 as [e l [err He] | e l _ IH]; rewrite render_cons.
  - rewrite He. by eexists.
  - destruct (Paper_fields e); [| by eexists].
    destruct IH as [err ->]. by eexists.
Qed.

Lemma render_Ok (f : Paper → string) (results : list pubmed_entry) :
  Forall (λ e, ¬ malformed e) results →
  ∃ papers, render f results = Ok papers ∧ length papers = length results.
Proof.
  induction 1 as [| e l He _ IH]; [by exists [] |]. rewrite render_cons.
  destruct (Paper_fields e) as [p|err] eqn:Hp; [| destruct He; by eexists].
  destruct IH as (papers & -> & Hlen). eexists. split; [done |]. simpl. by rewrite Hlen.
Qed.

Lemma add_new_papers_run (C : string) (new_papers : list string) (w : world) :
  files w !! papers_path = Some C →
  ∃ t, add_new_papers new_papers w
       = (Ok (), {| files := <[papers_path := prepended new_papers C]> (files w);
                    trace := trace w ++ t |}).
Proof.
  intros HC. unfold add_new_papers, prepended. case_bool_decide as Hne.
  - rewrite decide_False by done.
    rewrite (bind_Ok _ _ w w (universal_newlines C))
      by (unfold read_file; by rewrite HC).
    unfold mbind, M_bind, open_w, write, log, mret, M_ret. simpl.
    rewrite !lookup_insert_eq. simpl.
    rewrite !insert_insert_eq, !append_nil_l, <- !app_assoc. by eexists.
  - exists []. subst new_papers. rewrite decide_True by done.
    by rewrite insert_id, app_nil_r, world_eta.
Qed.

(** C5, amended statement: with store content [C], [add_new_papers] leaves
    the store holding the new blocks, concatenated in their order, followed by
    [C] as text mode reads it, a carriage return with or without its line
    feed having become one line feed; for a [C] without carriage returns
    that is the blocks followed by [C], byte for byte.  Without a new block
    the store is not written at all.  The identifier file is not touched. *)
Theorem prepend_exact (C : string) (new_papers : list string) (w : world) :
  files w !! papers_path = Some C →
  ∃ w', add_new_papers new_papers w = (Ok (), w') ∧
        files w' = <[papers_path := prepended new_papers C]> (files w) ∧
        (new_papers ≠ [] →
         files w' !! papers_path
         = Some (join "" new_papers +:+ universal_newlines C)) ∧
        (new_papers = [] → files w' !! papers_path = Some C) ∧
        (free_of carriage_return C →
         files w' !! papers_path = Some (join "" new_papers +:+ C)) ∧
        files w' !! ids_path = files w !! ids_path.
Proof.
  intros HC. destruct (add_new_papers_run C new_papers w HC) as [t ->].
  eexists. split; [done |]. cbn [files]. rewrite lookup_insert_eq.
  unfold prepended. split_and!.
  - done.
  - intros Hne. by rewrite decide_False.
  - intros ->. by rewrite decide_True.
  - intros Hfree. rewrite universal_newlines_free by done.
    case_decide as Hnil; [by subst new_papers |]. done.
  - apply lookup_insert_ne, paths_differ.
Qed.

Lemma prepend_exact_witness :
  ∃ w', add_new_papers ["- author: A."; "- author: B."] some_files = (Ok (), w') ∧
        files w' = <[papers_path := prepended ["- author: A."; "- author: B."]
                                       "- author: Old."]> (files some_files) ∧
        (["- author: A."; "- author: B."] ≠ [] →
         files w' !! papers_path
         = Some (join "" ["- author: A."; "- author: B."]
                 +:+ universal_newlines "- author: Old.")) ∧
        (["- author: A."; "- author: B."] = [] →
         files w' !! papers_path = Some "- author: Old.") ∧
        (free_of carriage_return "- author: Old." →
         files w' !! papers_path
         = Some (join "" ["- author: A."; "- author: B."] +:+ "- author: Old.")) ∧
        files w' !! ids_path = files some_files !! ids_path.
Proof.
  exact (prepend_exact "- author: Old." ["- author: A."; "- author: B."] some_files
           eq_refl).
Defined.

(** C5, counterexample to the statement of the specification: a store
    whose lines end in a carriage return and a line feed comes back from the
    prepend with line feeds alone, so what is persisted is not the block
    followed by the bytes the store held. *)
Lemma prepend_translates_line_endings :
  files crlf_files !! papers_path = Some crlf_store ∧
  files (add_new_papers ["- author: A."] crlf_files).2 !! papers_path
  = Some ("- author: A." +:+ "- author: Old." +:+ nl +:+ "  year: 2001" +:+ nl) ∧
  files (add_new_papers ["- author: A."] crlf_files).2 !! papers_path
  ≠ Some ("- author: A." +:+ crlf_store).
Proof.
  split_and!; [done | by vm_compute |].
  intros H. vm_compute in H. discriminate H.
Qed.

Section Runs.
Context (E : entrez).

Lemma search_author_run (q email : string) (m : Z) (w : world) :
  search_author E q email m w = (esearch E email q m, log (ESearch q m) w).
Proof. reflexivity. Qed.

Lemma fetch_details_run (id_list : list string) (email : string) (w : world) :
  fetch_details E id_list email w
    = (efetch E email (join "," id_list), log (EFetch (join "," id_list)) w).
Proof. reflexivity. Qed.

(** One pass of [fetch_new_papers] without [verbose], case by case. *)
Lemma fetch_new_papers_run (ids : list string) (email : string) (w : world) :
  let w1 := ensured ids_path w in
  let delta := ids_new ids (known_ids w) in
  let record := join "," (all_ids ids (known_ids w)) in
  ∃ t, Forall (λ e, is_print e = true) t ∧
    fetch_new_papers E ids email false w =
      if decide (delta = []) then
        (Ok None, log (EPrint "No new papers found.") w1)
      else
        match efetch E email (join "," delta) with
        | Raise err => (Raise err, log (EFetch (join "," delta)) w1)
        | Ok results =>
            match render yml results with
            | Raise err =>
                (Raise err,
                 {| files := files w1;
                    trace := trace w1 ++ EFetch (join "," delta) :: t |})
            | Ok papers =>
                (Ok (Some papers),
                 {| files := <[ids_path := record]> (files w);
                    trace := trace w1 ++ EFetch (join "," delta) :: t ++
                             [EOpenW ids_path; EWrite ids_path record] |})
            end
        end.
Proof.
  intros w1 delta record. unfold fetch_new_papers.
  rewrite (bind_Ok _ _ _ _ _ (load_previous_ids_run w)).
  fold delta. fold record. fold w1.
  destruct (decide (delta = [])) as [Hd | Hd].
  - exists []. split; [done |]. rewrite Hd. simpl. done.
  - rewrite bool_decide_true by (by destruct delta).
    rewrite bind_run, fetch_details_run.
    destruct (efetch E email (join "," delta)) as [results | err] eqn:Hf.
    + destruct (mapM_Paper_init yml results (log (EFetch (join "," delta)) w1))
        as (t & Ht & Hrun).
      exists t. split; [done |].
      rewrite bind_run, Hrun.
      destruct (render yml results) as [papers | err].
      * unfold mbind, M_bind, open_w, write, log, mret, M_ret. simpl.
        rewrite lookup_insert_eq. simpl. rewrite append_nil_l.
        rewrite insert_insert_eq. subst w1. rewrite ensured_insert.
        by rewrite <- !app_assoc.
      * simpl. by rewrite <- app_assoc.
    + by exists [].
Qed.

(** [main] without [--verbose] and without [--do_not_populate]. *)
Lemma main_quiet_run (a : args) (w : world) :
  verbose a = false → do_not_populate a = false →
  let ws := log (ESearch (query a) (requested_retmax a w)) (ensured papers_path w) in
  main E a w =
    match esearch E (email a) (query a) (requested_retmax a w) with
    | Raise err => (Raise err, ws)
    | Ok ids =>
        if decide (ids = []) then (Ok (), ws)
        else
          match fetch_new_papers E ids (email a) false ws with
          | (Ok (Some papers), w2) =>
              (add_new_papers papers ≫= λ _,
               print ("Added " +:+ pretty (length papers) +:+ " new papers.")) w2
          | (Ok None, w2) => (Ok (), w2)
          | (Raise err, w2) => (Raise err, w2)
          end
    end.
Proof.
  intros Hv Hd ws. unfold main. rewrite Hv, Hd.
  rewrite bind_run, load_current_papers_run.
  rewrite bind_run.
  rewrite universal_newlines_length.
  assert ((if bool_decide (String.length (content w papers_path) ≠ 0%nat)
           then search_author E (author a +:+ "[Author]") (email a) (max a)
           else search_author E (author a +:+ "[Author]") (email a)
                  (if bool_decide (max a ≠ 0) then max a else 100))
            (ensured papers_path w)
          = (esearch E (email a) (query a) (requested_retmax a w), ws)) as ->.
  { unfold ws, requested_retmax, query.
    destruct (bool_decide (String.length (content w papers_path) ≠ 0%nat));
      reflexivity. }
  destruct (esearch E (email a) (query a) (requested_retmax a w)) as [ids | err];
    [| done].
  destruct (decide (ids = [])) as [-> | Hne]; [done |].
  rewrite bool_decide_false by (by destruct ids).
  unfold mbind, M_bind, mret, M_ret. change (negb false) with true. cbv beta iota.
  destruct (fetch_new_papers E ids (email a) false ws) as [[[papers |] | err] w2]; done.
Qed.

(** X15: after a pass with a non-empty delta whose fetch and parse succeed,
    the identifier file is opened for writing and written once, last of all,
    and holds the new identifiers followed by the known ones, joined by
    commas: its identifiers are those of the candidates and of the known
    set; with no file at load time the known set is empty and the record is
    the candidates alone; over an existing file the record is the new
    identifiers, a comma and the old record as it was read, so that over an
    existing empty file it ends in a comma; and identifiers free of commas
    and carriage returns are read back as written. *)
Lemma identifier_file_rewritten (ids : list string) (email : string) (w : world)
    (results : list pubmed_entry) :
  ids_new ids (known_ids w) ≠ [] →
  efetch E email (join "," (ids_new ids (known_ids w))) = Ok results →
  Forall (λ e, ¬ malformed e) results →
  ∃ papers w',
    fetch_new_papers E ids email false w = (Ok (Some papers), w') ∧
    files w' = <[ids_path := join "," (all_ids ids (known_ids w))]> (files w) ∧
    (∃ t, trace w' = t ++ [EOpenW ids_path;
                           EWrite ids_path (join "," (all_ids ids (known_ids w)))]) ∧
    (∀ i, i ∈ all_ids ids (known_ids w) ↔ i ∈ ids ∨ i ∈ known_ids w) ∧
    (files w !! ids_path = None →
       known_ids w = [] ∧ files w' !! ids_path = Some (join "," ids)) ∧
    (∀ s, files w !! ids_path = Some s →
       files w' !! ids_path
         = Some (join "," (ids_new ids (known_ids w)) +:+ "," +:+ universal_newlines s)) ∧
    (files w !! ids_path = Some "" →
       files w' !! ids_path = Some (join "," (ids_new ids [""]) +:+ ",")) ∧
    (Forall (free_of comma) ids → Forall (free_of carriage_return) ids →
       known_ids w' = all_ids ids (known_ids w)).
Proof.
  intros Hne Hf Hok.
  destruct (fetch_new_papers_run ids email w) as (t & Ht & Hrun).
  cbv zeta in Hrun. rewrite decide_False, Hf in Hrun by done.
  destruct (render_Ok yml results Hok) as (papers & Hr & _).
  rewrite Hr in Hrun. eexists _, _. split; [exact Hrun |]. simpl.
  assert (∀ v, <[ids_path := v]> (files w) !! ids_path = Some v) as Hlook
    by (intros v; apply lookup_insert_eq).
  assert (∀ s, files w !! ids_path = Some s →
            join "," (all_ids ids (known_ids w))
            = join "," (ids_new ids (known_ids w)) +:+ "," +:+ universal_newlines s)
    as Hold.
  { intros s Hs. unfold all_ids.
    rewrite join_app by (done || (unfold known_ids; rewrite Hs; apply split_not_nil)).
    unfold known_ids at 2. rewrite Hs. by rewrite (join_split comma). }
  split_and!.
  - done.
  - eexists (_ ++ _ :: t). by rewrite <- app_assoc.
  - apply all_ids_elem.
  - intros Hnone. unfold known_ids, all_ids. rewrite Hnone.
    by rewrite Hlook, ids_new_none, app_nil_r.
  - intros s Hs. rewrite Hlook. f_equal. by apply Hold.
  - intros Hs. rewrite Hlook, (Hold "" Hs). unfold known_ids. by rewrite Hs.
  - intros Hfree Hcr. apply known_ids_written; [done | done | done | apply Hlook].
Qed.

(** C10, amended statement: when a record of the fetched batch does not
    parse, the pass raises that parse error before anything is written: the run has
    written to no file, a file that existed is exactly as it was, and the
    files at the end are those of the start with the store and the
    identifier file created empty where they were missing, which the load
    steps do before the batch is fetched. *)
Theorem malformed_record_aborts (a : args) (w : world) (ids : list string)
    (results : list pubmed_entry) :
  verbose a = false → do_not_populate a = false →
  esearch E (email a) (query a) (requested_retmax a w) = Ok ids →
  ids_new ids (known_ids w) ≠ [] →
  efetch E (email a) (join "," (ids_new ids (known_ids w))) = Ok results →
  Exists malformed results →
  ∃ err w' t,
    main E a w = (Raise err, w') ∧
    render yml results = Raise err ∧
    files w' = files (ensured ids_path (ensured papers_path w)) ∧
    (∀ path s, files w !! path = Some s → files w' !! path = Some s) ∧
    (∀ path, path = papers_path ∨ path = ids_path →
       files w !! path = None → files w' !! path = Some "") ∧
    (∀ path, path ≠ papers_path → path ≠ ids_path →
       files w' !! path = files w !! path) ∧
    (∀ path, content w' path = content w path) ∧
    trace w' = trace w ++ t ∧
    Forall (λ e, is_write e = false) t.
Proof.
  intros Hv Hd Hs Hne Hf Hbad.
  rewrite (main_quiet_run a w Hv Hd). cbv zeta. rewrite Hs.
  assert (ids ≠ []) as Hids by (by intros ->).
  rewrite decide_False by done.
  set (ws := log _ (ensured papers_path w)).
  destruct (fetch_new_papers_run ids (email a) ws) as (t & Ht & Hrun).
  cbv zeta in Hrun.
  assert (known_ids ws = known_ids w) as Hk by apply known_ids_ensured_papers.
  rewrite Hk in Hrun. rewrite decide_False, Hf in Hrun by done.
  destruct (render_malformed yml results Hbad) as [err Herr].
  rewrite Herr in Hrun. rewrite Hrun.
  destruct (ensured_trace papers_path w) as (t0 & Ht0 & Hw0).
  destruct (ensured_trace ids_path ws) as (t1 & Ht1 & Hw1).
  set (w' := {| files := files (ensured ids_path ws); trace := _ |}).
  assert (files w' = files (ensured ids_path (ensured papers_path w))) as Hfiles
    by apply ensured_files_log.
  eexists err, w', _. rewrite Hfiles.
  split_and!; [done | done | done | | | | | | ].
  - intros path s Hp. by do 2 apply ensured_lookup_Some.
  - intros path [-> | ->] Hnone.
    + rewrite ensured_lookup_ne by (by intros ?).
      rewrite ensured_lookup. unfold content. by rewrite Hnone.
    + rewrite ensured_lookup, ensured_content. unfold content. by rewrite Hnone.
  - intros path Hp Hi. by rewrite !ensured_lookup_ne.
  - intros path. unfold content at 1. rewrite Hfiles.
    change (content (ensured ids_path (ensured papers_path w)) path
            = content w path).
    by rewrite !ensured_content.
  - unfold w'. cbn [trace]. rewrite Ht1. unfold ws. simpl. rewrite Ht0.
    rewrite <- !app_assoc. reflexivity.
  - apply Forall_app. split; [done |]. apply Forall_app. split; [by constructor |].
    apply Forall_app. split; [done |]. constructor; [done |].
    eapply Forall_impl; [exact Ht |]. intros e He. by destruct e.
Qed.

Lemma first_run_settles (a : args) (w0 w1 : world) (ids : list string) :
  verbose a = false → do_not_populate a = false →
  Forall (free_of comma) ids →
  Forall (free_of carriage_return) ids →
  esearch E (email a) (query a) (requested_retmax a w0) = Ok ids →
  main E a w0 = (Ok (), w1) →
  settled ids w1.
Proof.
  intros Hv Hd Hfree Hcr Hs Hrun.
  rewrite (main_quiet_run a w0 Hv Hd) in Hrun. cbv zeta in Hrun.
  rewrite Hs in Hrun.
  set (ws := log _ (ensured papers_path w0)) in Hrun.
  assert (files ws !! papers_path = Some (content w0 papers_path)) as Hstore
    by apply ensured_lookup.
  destruct (decide (ids = [])) as [-> | Hids].
  { injection Hrun as <-. split; [by eexists | done]. }
  destruct (fetch_new_papers_run ids (email a) ws) as (t & Ht & Hf).
  cbv zeta in Hf. rewrite Hf in Hrun. clear Hf.
  destruct (decide (ids_new ids (known_ids ws) = [])) as [Hnil | Hnew].
  - injection Hrun as <-. unfold settled. rewrite !files_log. split.
    + eexists. by apply ensured_lookup_Some.
    + intros _. split; [rewrite ensured_lookup; by eexists |].
      destruct (files ws !! ids_path) as [s|] eqn:Hfile.
      * rewrite (known_ids_ext _ ws)
          by (rewrite files_log; by rewrite ensured_id by (by eexists)).
        by apply ids_new_nil_inv.
      * exfalso. apply Hids. unfold known_ids in Hnil.
        rewrite Hfile in Hnil. by rewrite ids_new_none in Hnil.
  - destruct (efetch E (email a) _) as [results | err]; [| done].
    destruct (render yml results) as [papers | err]; [| done].
    set (w2 := {| files := _; trace := _ |}) in Hrun.
    assert (files w2 !! papers_path = Some (content w0 papers_path)) as Hstore2.
    { unfold w2. simpl. rewrite lookup_insert_ne; [done | by intros ?]. }
    destruct (add_new_papers_run _ papers w2 Hstore2) as (t' & Hadd).
    rewrite (bind_Ok _ _ _ _ _ Hadd) in Hrun.
    injection Hrun as <-. simpl.
    assert (<[papers_path := prepended papers (content w0 papers_path)]>
              (<[ids_path := join "," (all_ids ids (known_ids ws))]> (files ws))
              !! ids_path = Some (join "," (all_ids ids (known_ids ws)))) as Hrec.
    { rewrite lookup_insert_ne by apply paths_differ. apply lookup_insert_eq. }
    unfold settled. rewrite files_log. cbn [files].
    change (files (ensured papers_path w0)) with (files ws).
    split.
    + rewrite lookup_insert_eq. by eexists.
    + intros _. split; [by eexists |]. intros i Hi.
      rewrite (known_ids_written ids ws) by done.
      apply all_ids_elem. by left.
Qed.

Lemma settled_run (a : args) (w : world) (ids : list string) :
  verbose a = false → do_not_populate a = false →
  esearch E (email a) (query a) (requested_retmax a w) = Ok ids →
  settled ids w →
  main E a w =
    (Ok (), {| files := files w;
               trace := trace w ++ ESearch (query a) (requested_retmax a w) ::
                        (if decide (ids = []) then []
                         else [EPrint "No new papers found."]) |}).
Proof.
  intros Hv Hd Hs [Hstore Hknown].
  rewrite (main_quiet_run a w Hv Hd). cbv zeta. rewrite Hs.
  rewrite (ensured_id papers_path w Hstore).
  destruct (decide (ids = [])) as [-> | Hids]; [done |].
  destruct (Hknown Hids) as [Hfile Hall].
  set (ws := log _ w).
  destruct (fetch_new_papers_run ids (email a) ws) as (t & Ht & ->).
  cbv zeta. rewrite (known_ids_ext ws w) by done.
  rewrite decide_True by (by apply ids_new_all).
  rewrite (ensured_id ids_path ws) by done.
  unfold ws, log. simpl. by rewrite <- app_assoc.
Qed.

End Runs.

(** C2: a pass that completes, run again while the search finds the same
    identifiers, which hold no comma and no carriage return, ends without an
    error in a world whose files are those the first pass left; all it does
    is the search and, unless the search found nothing, printing "No new
    papers found.": no fetch, no write. *)
Theorem ingestion_idempotent (E1 E2 : entrez) (a : args) (w0 w1 : world)
    (ids : list string) :
  verbose a = false → do_not_populate a = false →
  Forall (free_of comma) ids →
  Forall (free_of carriage_return) ids →
  esearch E1 (email a) (query a) (requested_retmax a w0) = Ok ids →
  main E1 a w0 = (Ok (), w1) →
  esearch E2 (email a) (query a) (requested_retmax a w1) = Ok ids →
  main E2 a w1 =
    (Ok (), {| files := files w1;
               trace := trace w1 ++ ESearch (query a) (requested_retmax a w1) ::
                        (if decide (ids = []) then []
                         else [EPrint "No new papers found."]) |}).
Proof.
  intros Hv Hd Hfree Hcr Hs1 Hrun Hs2.
  apply settled_run; [done | done | done |].
  by apply (first_run_settles E1 a w0).
Qed.

Lemma ingestion_idempotent_witness :
  main (sample_entrez ["1"; "2"] sample_entry) (sample_args 20 false false)
    (main (sample_entrez ["1"; "2"] sample_entry) (sample_args 20 false false) no_files).2
  = (Ok (),
     {| files :=
          files (main (sample_entrez ["1"; "2"] sample_entry)
                   (sample_args 20 false false) no_files).2;
        trace :=
          trace (main (sample_entrez ["1"; "2"] sample_entry)
                   (sample_args 20 false false) no_files).2 ++
          [ESearch "Tran L[Author]" 20; EPrint "No new papers found."] |}).
Proof.
  assert ((main (sample_entrez ["1"; "2"] sample_entry) (sample_args 20 false false)
             no_files).1 = Ok ()) as Hfirst by (vm_compute; reflexivity).
  assert (requested_retmax (sample_args 20 false false)
            (main (sample_entrez ["1"; "2"] sample_entry) (sample_args 20 false false)
               no_files).2 = 20) as Hmax by (vm_compute; reflexivity).
  destruct (main (sample_entrez ["1"; "2"] sample_entry) (sample_args 20 false false)
              no_files) as [r w1] eqn:Hrun.
  simpl in Hfirst, Hmax |- *. subst r.
  rewrite (ingestion_idempotent (sample_entrez ["1"; "2"] sample_entry)
             (sample_entrez ["1"; "2"] sample_entry) (sample_args 20 false false)
             no_files w1 ["1"; "2"]).
  - rewrite Hmax. reflexivity.
  - reflexivity.
  - reflexivity.
  - by repeat constructor.
  - by repeat constructor.
  - reflexivity.
  - exact Hrun.
  - reflexivity.
Defined.

Lemma identifier_file_rewritten_witness :
  ∃ papers w',
    fetch_new_papers (sample_entrez ["1"; "2"] sample_entry) ["1"; "2"]
      "me@example.org" false some_files = (Ok (Some papers), w') ∧
    files w' !! ids_path = Some "2,1".
Proof.
  destruct (identifier_file_rewritten (sample_entrez ["1"; "2"] sample_entry)
              ["1"; "2"] "me@example.org" some_files [sample_entry])
    as (papers & w' & Hrun & _ & _ & _ & _ & Hover & _).
  - by vm_compute.
  - reflexivity.
  - repeat constructor. intros [err H]. vm_compute in H. discriminate H.
  - exists papers, w'. split; [exact Hrun |].
    rewrite (Hover "1" eq_refl). by vm_compute.
Defined.

Lemma malformed_record_aborts_witness :
  (∃ err w',
     main (sample_entrez ["1"; "2"] untitled_entry) (sample_args 20 false false)
       some_files = (Raise err, w') ∧
     files w' !! ids_path = Some "1" ∧
     files w' !! papers_path = Some "- author: Old.") ∧
  (∃ err w',
     main (sample_entrez ["1"; "2"] untitled_entry) (sample_args 20 false false)
       no_files = (Raise err, w') ∧
     files w' !! ids_path = Some "" ∧
     files w' !! papers_path = Some "").
Proof.
  split.
  - destruct (malformed_record_aborts (sample_entrez ["1"; "2"] untitled_entry)
                (sample_args 20 false false) some_files ["1"; "2"] [untitled_entry])
      as (err & w' & t & Hrun & _ & _ & Hkeep & _).
    + reflexivity.
    + reflexivity.
    + reflexivity.
    + by vm_compute.
    + reflexivity.
    + left. exists (KeyError "ArticleTitle"). reflexivity.
    + exists err, w'. split; [exact Hrun |]. split; by apply Hkeep.
  - destruct (malformed_record_aborts (sample_entrez ["1"; "2"] untitled_entry)
                (sample_args 20 false false) no_files ["1"; "2"]
                [untitled_entry; untitled_entry])
      as (err & w' & t & Hrun & _ & _ & _ & Hnew & _).
    + reflexivity.
    + reflexivity.
    + reflexivity.
    + by vm_compute.
    + reflexivity.
    + left. exists (KeyError "ArticleTitle"). reflexivity.
    + exists err, w'. split; [exact Hrun |]. split; apply Hnew; auto.
Defined.

(** C10, counterexample to the statement of the specification: on a first
    run, where neither file exists, the pass that aborts on a record that
    does not parse has created both files by then, so they are not as they
    were, and the identifier file, which held no identifier, is now read as
    holding the empty one. *)
Lemma aborted_first_run_creates_files :
  files no_files !! papers_path = None ∧
  files no_files !! ids_path = None ∧
  known_ids no_files = [] ∧
  (main (sample_entrez ["1"; "2"] untitled_entry) (sample_args 20 false false)
     no_files).1 = Raise (KeyError "ArticleTitle") ∧
  files (main (sample_entrez ["1"; "2"] untitled_entry) (sample_args 20 false false)
           no_files).2 !! papers_path = Some "" ∧
  files (main (sample_entrez ["1"; "2"] untitled_entry) (sample_args 20 false false)
           no_files).2 !! ids_path = Some "" ∧
  known_ids (main (sample_entrez ["1"; "2"] untitled_entry)
               (sample_args 20 false false) no_files).2 = [""] ∧
  files (main (sample_entrez ["1"; "2"] untitled_entry) (sample_args 20 false false)
           no_files).2 !! ids_path ≠ files no_files !! ids_path.
Proof.
  split_and!; try (vm_compute; reflexivity).
  intros H. vm_compute in H. discriminate H.
Qed.

(** C4: the usage line of the docstring, run where neither file exists,
    leaves the identifier file created and empty; the ingestion pass that
    follows reads that file as holding the empty identifier and writes a
    record that ends in a comma, where the same pass over no file at all
    writes the two identifiers alone. *)
Theorem empty_file_record_ends_in_comma :
  files no_files !! ids_path = None ∧
  (main (sample_entrez ["1"; "2"] sample_entry) (sample_args 10 true true)
     no_files).1 = Ok () ∧
  files dry_run_world !! ids_path = Some "" ∧
  known_ids dry_run_world = [""] ∧
  (main (sample_entrez ["1"; "2"] sample_entry) (sample_args 20 false false)
     dry_run_world).1 = Ok () ∧
  files (main (sample_entrez ["1"; "2"] sample_entry) (sample_args 20 false false)
           dry_run_world).2 !! ids_path = Some "1,2," ∧
  files (main (sample_entrez ["1"; "2"] sample_entry) (sample_args 20 false false)
           no_files).2 !! ids_path = Some "1,2".
Proof. split_and!; vm_compute; reflexivity. Qed.

(** ** Verbose mode and the first run *)

Lemma same_bytes_refl (w : world) : same_bytes w w.
Proof. by split. Qed.

Lemma same_bytes_trans (w1 w2 w3 : world) :
  same_bytes w1 w2 → same_bytes w2 w3 → same_bytes w1 w3.
Proof.
  intros [Hc1 Hf1] [Hc2 Hf2]. split.
  - intros path. by rewrite Hc2.
  - intros path s Hs. by apply Hf2, Hf1.
Qed.

Lemma same_bytes_log (e : event) (w : world) : same_bytes w (log e w).
Proof. by split. Qed.

Lemma same_bytes_ensured (path : string) (w : world) : same_bytes w (ensured path w).
Proof.
  split.
  - intros p. apply ensured_content.
  - intros p s. apply ensured_lookup_Some.
Qed.

Lemma read_only_bind {A B : Type} (m : M A) (f : A → M B) :
  read_only m → (∀ a, read_only (f a)) → read_only (m ≫= f).
Proof.
  intros Hm Hf w. rewrite bind_run. specialize (Hm w).
  destruct (m w) as [[a | err] w']; [| done].
  eapply same_bytes_trans; [exact Hm | apply Hf].
Qed.

Lemma read_only_ret {A : Type} (a : A) : read_only (mret a : M A).
Proof. intros w. apply same_bytes_refl. Qed.

Lemma read_only_print (line : string) : read_only (print line).
Proof. intros w. apply same_bytes_log. Qed.

Lemma read_only_mapM {A B : Type} (g : A → M B) (l : list A) :
  (∀ x, read_only (g x)) → read_only (mapM g l).
Proof.
  intros Hg. induction l as [|x l IH]; [apply read_only_ret |].
  apply read_only_bind; [apply Hg |]. intros y.
  apply read_only_bind; [apply IH |]. intros k. apply read_only_ret.
Qed.

Lemma read_only_Paper_init (e : pubmed_entry) : read_only (Paper_init e).
Proof.
  apply read_only_bind; [intros w; apply same_bytes_refl |]. intros p.
  apply read_only_bind; [apply read_only_print |]. intros _. apply read_only_ret.
Qed.

Lemma read_only_load_previous_ids : read_only load_previous_ids.
Proof. intros w. rewrite load_previous_ids_run. apply same_bytes_ensured. Qed.

Lemma read_only_load_current_papers : read_only load_current_papers.
Proof. intros w. rewrite load_current_papers_run. apply same_bytes_ensured. Qed.

Section Verbose.
Context (E : entrez).

Lemma read_only_fetch_verbose (ids : list string) (email : string) :
  read_only (fetch_new_papers E ids email true).
Proof.
  apply read_only_bind; [apply read_only_load_previous_ids |]. intros previous_ids.
  apply read_only_bind; [intros w; apply same_bytes_log |]. intros results.
  apply read_only_bind; [| intros prints; apply read_only_ret].
  apply read_only_mapM. intros e.
  apply read_only_bind; [apply read_only_Paper_init |]. intros p. apply read_only_ret.
Qed.

(** X1: with [--do_not_populate], verbose or not, a run changes the bytes of
    no file: at most it creates a missing file, empty. *)
Lemma dry_run_read_only (a : args) : do_not_populate a = true → read_only (main E a).
Proof.
  intros Hd. unfold main. rewrite Hd.
  apply read_only_bind; [apply read_only_load_current_papers |]. intros current_papers.
  apply read_only_bind.
  { destruct (bool_decide _); intros w; apply same_bytes_log. }
  intros ids. destruct (bool_decide (length ids = 0%nat)); [apply read_only_ret |].
  apply read_only_bind; [| intros _; apply read_only_ret].
  destruct (verbose a); [| apply read_only_ret].
  apply read_only_bind; [apply read_only_fetch_verbose |].
  intros [papers |]; [| intros w; apply same_bytes_refl].
  apply read_only_bind; [| intros _; apply read_only_ret].
  apply read_only_mapM. intros line. apply read_only_print.
Qed.

End Verbose.

(** C1: run with [--verbose] and without [--do_not_populate] on a known
    identifier "1" while the search finds "1" and "2": the run ends without
    an error, and has rewritten the identifier file to "2,1" and put the new
    citation before the old store. *)
Theorem verbose_run_writes_files :
  files some_files !! ids_path = Some "1" ∧
  files some_files !! papers_path = Some "- author: Old." ∧
  (main (sample_entrez ["1"; "2"] sample_entry) (sample_args 20 true false)
     some_files).1 = Ok () ∧
  files (main (sample_entrez ["1"; "2"] sample_entry) (sample_args 20 true false)
           some_files).2 !! ids_path = Some "2,1" ∧
  files (main (sample_entrez ["1"; "2"] sample_entry) (sample_args 20 true false)
           some_files).2 !! papers_path = Some (sample_yml +:+ "- author: Old.").
Proof. repeat split; vm_compute; reflexivity. Qed.

Lemma requested_retmax_nonzero (a : args) (w : world) :
  max a ≠ 0 → requested_retmax a w = max a.
Proof.
  intros Hmax. unfold requested_retmax.
  destruct (bool_decide (String.length (content w papers_path) ≠ 0%nat)); [done |].
  by rewrite bool_decide_true.
Qed.

Lemma requested_retmax_zero (a : args) (w : world) :
  max a = 0 → content w papers_path = "" → requested_retmax a w = 100.
Proof.
  intros Hmax Hempty. unfold requested_retmax. rewrite Hempty, Hmax. reflexivity.
Qed.

(** C9: with the default [--max] of 20, the search of a first run (no store)
    and the search of a later run (a store with content) both ask for 20. *)
Theorem first_run_asks_for_default_max :
  trace (main (sample_entrez [] sample_entry) (sample_args 20 false false) no_files).2
    = [EOpenW papers_path; ESearch "Tran L[Author]" 20] ∧
  trace (main (sample_entrez [] sample_entry) (sample_args 20 false false) some_files).2
    = [ESearch "Tran L[Author]" 20] ∧
  requested_retmax (sample_args 20 false false) no_files = 20 ∧
  requested_retmax (sample_args 20 false false) some_files = 20.
Proof. repeat split; vm_compute; reflexivity. Qed.

(** ** The whole run, block by block *)

Lemma requested_retmax_nonzero_aux (a : args) (w : world) :
  max a ≠ 0 → requested_retmax a w = max a.
Proof.
  intros Hmax. unfold requested_retmax.
  destruct (bool_decide (String.length (content w papers_path) ≠ 0%nat)); [done |].
  by rewrite bool_decide_true.
Qed.

Section Blocks.
Context (E : entrez).

(** [main] as its load, its search and its two blocks. *)
Lemma main_run (a : args) (w : world) :
  let ws := log (ESearch (query a) (requested_retmax a w)) (ensured papers_path w) in
  main E a w =
    match esearch E (email a) (query a) (requested_retmax a w) with
    | Raise err => (Raise err, ws)
    | Ok ids =>
        if decide (ids = []) then (Ok (), ws)
        else (verbose_block E a ids ≫= λ _, populate_block E a ids) ws
    end.
Proof.
  intros ws. unfold main.
  rewrite bind_run, load_current_papers_run.
  rewrite bind_run, universal_newlines_length.
  assert ((if bool_decide (String.length (content w papers_path) ≠ 0%nat)
           then search_author E (author a +:+ "[Author]") (email a) (max a)
           else search_author E (author a +:+ "[Author]") (email a)
                  (if bool_decide (max a ≠ 0) then max a else 100))
            (ensured papers_path w)
          = (esearch E (email a) (query a) (requested_retmax a w), ws)) as ->.
  { unfold ws, requested_retmax, query.
    destruct (bool_decide (String.length (content w papers_path) ≠ 0%nat));
      reflexivity. }
  destruct (esearch E (email a) (query a) (requested_retmax a w)) as [ids | err];
    [| done].
  destruct (decide (ids = [])) as [-> | Hne]; [done |].
  rewrite bool_decide_false by (by destruct ids).
  reflexivity.
Qed.

End Blocks.

(** ** What a computation emits *)

Section Emits.
Context (P : event → Prop).

Lemma emits_ret {A : Type} (a : A) : emits P (mret a : M A).
Proof. intros w. exists []. by rewrite app_nil_r. Qed.

Lemma emits_lift {A : Type} (r : result A) : emits P (lift r).
Proof. intros w. exists []. by rewrite app_nil_r. Qed.

Lemma emits_bind {A B : Type} (m : M A) (f : A → M B) :
  emits P m → (∀ a, emits P (f a)) → emits P (m ≫= f).
Proof.
  intros Hm Hf w. rewrite bind_run. destruct (Hm w) as (t & Ht & HP).
  destruct (m w) as [[a | err] w']; [| by exists t].
  destruct (Hf a w') as (t' & Ht' & HP'). exists (t ++ t').
  split; [| by apply Forall_app].
  simpl in Ht. by rewrite Ht', Ht, app_assoc.
Qed.

Lemma emits_mapM {A B : Type} (g : A → M B) (l : list A) :
  (∀ x, emits P (g x)) → emits P (mapM g l).
Proof.
  intros Hg. induction l as [|x l IH]; [apply emits_ret |].
  apply emits_bind; [apply Hg |]. intros y.
  apply emits_bind; [apply IH |]. intros k. apply emits_ret.
Qed.

Lemma emits_log {A : Type} (r : result A) (e : event) :
  P e → emits P (λ w, (r, log e w)).
Proof. intros He w. exists [e]. split; [done | by constructor]. Qed.

Lemma emits_print (line : string) : P (EPrint line) → emits P (print line).
Proof. apply (emits_log (Ok ())). Qed.

Lemma emits_read_file (path : string) : emits P (read_file path).
Proof.
  intros w. exists []. rewrite app_nil_r. unfold read_file.
  by destruct (files w !! path).
Qed.

Lemma emits_open_w (path : string) : P (EOpenW path) → emits P (open_w path).
Proof. intros He w. exists [EOpenW path]. split; [done | by constructor]. Qed.

Lemma emits_write (path data : string) :
  P (EWrite path data) → emits P (write path data).
Proof. intros He w. exists [EWrite path data]. split; [done | by constructor]. Qed.

Lemma emits_ensured (path : string) :
  P (EOpenW path) → emits P (λ w, (Ok (), ensured path w)).
Proof.
  intros He w. unfold ensured. simpl. destruct (files w !! path).
  - exists []. by rewrite app_nil_r.
  - exists [EOpenW path]. split; [done | by constructor].
Qed.

Lemma emits_load_previous_ids : P (EOpenW ids_path) → emits P load_previous_ids.
Proof.
  intros He w. rewrite load_previous_ids_run.
  apply (emits_ensured ids_path He w).
Qed.

Lemma emits_Paper_init (e : pubmed_entry) :
  (∀ line, P (EPrint line)) → emits P (Paper_init e).
Proof.
  intros He. apply emits_bind; [apply emits_lift |]. intros p.
  apply emits_bind; [by apply emits_print |]. intros _. apply emits_ret.
Qed.

Lemma emits_add_new_papers (new_papers : list string) :
  P (EOpenW papers_path) → (∀ data, P (EWrite papers_path data)) →
  emits P (add_new_papers new_papers).
Proof.
  intros Ho Hw. unfold add_new_papers.
  destruct (bool_decide (new_papers ≠ [])); [| apply emits_ret].
  apply emits_bind; [apply emits_read_file |]. intros original_text.
  apply emits_bind; [by apply emits_open_w |]. intros _.
  apply emits_bind; [by apply emits_write |]. intros _.
  apply emits_bind; [by apply emits_write |]. intros _. apply emits_ret.
Qed.

Lemma emits_fetch_verbose (E : entrez) (ids : list string) (email : string) :
  P (EOpenW ids_path) → (∀ s, P (EFetch s)) → (∀ line, P (EPrint line)) →
  emits P (fetch_new_papers E ids email true).
Proof.
  intros Ho Hf Hp.
  apply emits_bind; [by apply emits_load_previous_ids |]. intros previous_ids.
  apply emits_bind; [by apply emits_log |]. intros results.
  apply emits_bind; [| intros prints; apply emits_ret].
  apply emits_mapM. intros e.
  apply emits_bind; [by apply emits_Paper_init |]. intros p. apply emits_ret.
Qed.

Lemma emits_fetch_quiet (E : entrez) (ids : list string) (email : string) :
  P (EOpenW ids_path) → (∀ s, P (EFetch s)) → (∀ line, P (EPrint line)) →
  (∀ data, P (EWrite ids_path data)) →
  emits P (fetch_new_papers E ids email false).
Proof.
  intros Ho Hf Hp Hw.
  apply emits_bind; [by apply emits_load_previous_ids |]. intros previous_ids.
  simpl. destruct (bool_decide _).
  - apply emits_bind; [by apply emits_log |]. intros results.
    apply emits_bind.
    { apply emits_mapM. intros e.
      apply emits_bind; [by apply emits_Paper_init |]. intros p. apply emits_ret. }
    intros papers.
    apply emits_bind; [by apply emits_open_w |]. intros _.
    apply emits_bind; [by apply emits_write |]. intros _. apply emits_ret.
  - apply emits_bind; [by apply emits_print |]. intros _. apply emits_ret.
Qed.

Lemma emits_verbose_block (E : entrez) (a : args) (ids : list string) :
  P (EOpenW ids_path) → (∀ s, P (EFetch s)) → (∀ line, P (EPrint line)) →
  emits P (verbose_block E a ids).
Proof.
  intros Ho Hf Hp. unfold verbose_block.
  destruct (verbose a); [| apply emits_ret].
  apply emits_bind; [by apply emits_fetch_verbose |].
  intros [papers |]; [| apply emits_lift].
  apply emits_bind; [| intros _; apply emits_ret].
  apply emits_mapM. intros line. by apply emits_print.
Qed.

Lemma emits_populate_block (E : entrez) (a : args) (ids : list string) :
  (∀ path, P (EOpenW path)) → (∀ s, P (EFetch s)) → (∀ line, P (EPrint line)) →
  (∀ path data, P (EWrite path data)) →
  emits P (populate_block E a ids).
Proof.
  intros Ho Hf Hp Hw. unfold populate_block.
  destruct (negb (do_not_populate a)); [| apply emits_ret].
  apply emits_bind; [by apply emits_fetch_quiet |].
  intros [papers |]; [| apply emits_ret].
  apply emits_bind; [by apply emits_add_new_papers |]. intros _.
  by apply emits_print.
Qed.

End Emits.

(** ** Runs that stop after the search *)

Lemma same_bytes_known (w w' : world) (i : string) :
  same_bytes w w' → i ∈ known_ids w → i ∈ known_ids w'.
Proof.
  intros [_ Hkeep]. unfold known_ids at 1.
  destruct (files w !! ids_path) as [s|] eqn:Hs; [| by intros ?%elem_of_nil].
  unfold known_ids. by rewrite (Hkeep _ _ Hs).
Qed.

Lemma same_bytes_searched (q : string) (m : Z) (w : world) :
  same_bytes w (log (ESearch q m) (ensured papers_path w)).
Proof.
  eapply same_bytes_trans; [apply same_bytes_ensured | apply same_bytes_log].
Qed.

Lemma read_only_verbose_block (E : entrez) (a : args) (ids : list string) :
  read_only (verbose_block E a ids).
Proof.
  unfold verbose_block. destruct (verbose a); [| apply read_only_ret].
  apply read_only_bind; [apply read_only_fetch_verbose |].
  intros [papers |]; [| intros w; apply same_bytes_refl].
  apply read_only_bind; [| intros _; apply read_only_ret].
  apply read_only_mapM. intros line. apply read_only_print.
Qed.

(** X5: with [--do_not_populate] and without [--verbose] a run
    is its search and nothing more: the identifier file is not even read. *)
Theorem main_search_only (E : entrez) (a : args) (w : world) :
  verbose a = false → do_not_populate a = true →
  main E a w =
    (match esearch E (email a) (query a) (requested_retmax a w) with
     | Ok _ => Ok ()
     | Raise err => Raise err
     end,
     log (ESearch (query a) (requested_retmax a w)) (ensured papers_path w)).
Proof.
  intros Hv Hd. rewrite main_run. cbv zeta.
  destruct (esearch E (email a) (query a) (requested_retmax a w)) as [ids | err];
    [| done].
  destruct (decide (ids = [])); [done |].
  unfold verbose_block, populate_block. by rewrite Hv, Hd.
Qed.

Lemma main_search_only_witness :
  main (sample_entrez ["1"; "2"] sample_entry) (sample_args 20 false true) no_files
  = (Ok (), {| files := {[ papers_path := "" ]};
               trace := [EOpenW papers_path; ESearch "Tran L[Author]" 20] |}).
Proof.
  exact (main_search_only (sample_entrez ["1"; "2"] sample_entry)
           (sample_args 20 false true) no_files eq_refl eq_refl).
Defined.

(** X6: when the search finds nothing, a run ends without an
    error right after it, whatever its flags: no fetch, no message, and no
    file touched but a store that had to be created. *)
Theorem main_empty_search (E : entrez) (a : args) (w : world) :
  esearch E (email a) (query a) (requested_retmax a w) = Ok [] →
  main E a w =
    (Ok (), log (ESearch (query a) (requested_retmax a w)) (ensured papers_path w)).
Proof. intros Hs. rewrite main_run. cbv zeta. by rewrite Hs. Qed.

Lemma main_empty_search_witness :
  main (sample_entrez [] sample_entry) (sample_args 20 true false) some_files
  = (Ok (), {| files := files some_files;
               trace := [ESearch "Tran L[Author]" 20] |}).
Proof.
  exact (main_empty_search (sample_entrez [] sample_entry) (sample_args 20 true false)
           some_files eq_refl).
Defined.

(** X7: every run searches exactly once, before anything else
    but creating a missing store, for the author followed by "[Author]";
    it asks for [--max] results, except that with [--max 0] and an empty or
    missing store it asks for 100. *)
Theorem main_searches_once (E : entrez) (a : args) (w : world) :
  ∃ t,
    trace (main E a w).2
      = trace w ++
        match files w !! papers_path with
        | Some _ => []
        | None => [EOpenW papers_path]
        end ++
        ESearch (author a +:+ "[Author]") (requested_retmax a w) :: t ∧
    Forall (λ e, is_search e = false) t ∧
    (max a ≠ 0 → requested_retmax a w = max a) ∧
    (max a = 0 →
     requested_retmax a w = if decide (content w papers_path = "") then 100 else 0).
Proof.
  assert (trace (log (ESearch (query a) (requested_retmax a w))
                   (ensured papers_path w))
          = trace w ++
            match files w !! papers_path with
            | Some _ => []
            | None => [EOpenW papers_path]
            end ++ [ESearch (author a +:+ "[Author]") (requested_retmax a w)])
    as Hws.
  { unfold ensured, query. destruct (files w !! papers_path); simpl; [done |].
    by rewrite <- app_assoc. }
  assert (∃ t, trace (main E a w).2
               = trace (log (ESearch (query a) (requested_retmax a w))
                          (ensured papers_path w)) ++ t ∧
               Forall (λ e, is_search e = false) t) as (t & Ht & Hno).
  { rewrite main_run. cbv zeta.
    destruct (esearch E (email a) (query a) (requested_retmax a w)) as [ids | err].
    - destruct (decide (ids = [])); [exists []; by rewrite app_nil_r |].
      apply (emits_bind (λ e, is_search e = false)).
      + by apply emits_verbose_block.
      + intros _. by apply emits_populate_block.
    - exists []. by rewrite app_nil_r. }
  exists t. split_and!.
  - rewrite Ht, Hws. by rewrite <- !app_assoc.
  - done.
  - apply requested_retmax_nonzero_aux.
  - intros Hmax. unfold requested_retmax. rewrite Hmax.
    destruct (content w papers_path); reflexivity.
Qed.

(** ** The populating block, case by case *)

Lemma split_app (c : ascii) (s t : string) :
  split c (s +:+ String c t) = split c s ++ split c t.
Proof.
  induction s as [|a s IH].
  - rewrite append_nil_l. simpl. by rewrite decide_True.
  - rewrite append_String. simpl. rewrite IH.
    destruct (decide (a = c)); [done |].
    pose proof (split_not_nil c s) as Hne.
    by destruct (split c s).
Qed.

Lemma add_new_papers_full (C : string) (new_papers : list string) (w : world) :
  files w !! papers_path = Some C →
  add_new_papers new_papers w
  = (Ok (),
     {| files := <[papers_path := prepended new_papers C]> (files w);
        trace := trace w ++
                 if decide (new_papers = []) then []
                 else [EOpenW papers_path; EWrite papers_path (join "" new_papers);
                       EWrite papers_path (universal_newlines C)] |}).
Proof.
  intros HC. unfold add_new_papers, prepended. case_bool_decide as Hne.
  - rewrite !decide_False by done.
    rewrite (bind_Ok _ _ w w (universal_newlines C))
      by (unfold read_file; by rewrite HC).
    unfold mbind, M_bind, open_w, write, log, mret, M_ret. simpl.
    rewrite !lookup_insert_eq. simpl.
    by rewrite !insert_insert_eq, !append_nil_l, <- !app_assoc.
  - subst new_papers. rewrite !decide_True by done.
    by rewrite insert_id, app_nil_r, world_eta.
Qed.

Lemma render_length (f : Paper → string) (results : list pubmed_entry)
    (papers : list string) :
  render f results = Ok papers → length papers = length results.
Proof.
  revert papers. induction results as [|e results IH]; intros papers.
  - intros H. by injection H as <-.
  - rewrite render_cons. destruct (Paper_fields e); [| done].
    destruct (render f results) as [k|]; [| done].
    intros H. injection H as <-. simpl. by rewrite (IH k).
Qed.

Lemma render_Forall2 (f : Paper → string) (results : list pubmed_entry)
    (papers : list string) :
  render f results = Ok papers →
  Forall2 (λ e s, ∃ p, Paper_fields e = Ok p ∧ s = f p) results papers.
Proof.
  revert papers. induction results as [|e results IH]; intros papers.
  - intros H. injection H as <-. constructor.
  - rewrite render_cons. destruct (Paper_fields e) as [p|] eqn:Hp; [| done].
    destruct (render f results) as [k|]; [| done].
    intros H. injection H as <-. constructor; [by exists p | by apply IH].
Qed.

Section Populate.
Context (E : entrez).

Lemma populate_block_run (a : args) (ids : list string) (w : world) (C : string) :
  do_not_populate a = false →
  files w !! papers_path = Some C →
  let w1 := ensured ids_path w in
  let delta := ids_new ids (known_ids w) in
  let record := join "," (all_ids ids (known_ids w)) in
  ∃ t, Forall (λ e, is_print e = true) t ∧
    populate_block E a ids w =
      if decide (delta = []) then
        (Ok (), log (EPrint "No new papers found.") w1)
      else
        match efetch E (email a) (join "," delta) with
        | Raise err => (Raise err, log (EFetch (join "," delta)) w1)
        | Ok results =>
            match render yml results with
            | Raise err =>
                (Raise err,
                 {| files := files w1;
                    trace := trace w1 ++ EFetch (join "," delta) :: t |})
            | Ok papers =>
                (Ok (),
                 {| files := <[papers_path := prepended papers C]>
                               (<[ids_path := record]> (files w));
                    trace :=
                      trace w1 ++ EFetch (join "," delta) :: t ++
                      [EOpenW ids_path; EWrite ids_path record] ++
                      (if decide (papers = []) then []
                       else [EOpenW papers_path;
                             EWrite papers_path (join "" papers);
                             EWrite papers_path (universal_newlines C)]) ++
                      [EPrint ("Added " +:+ pretty (length papers) +:+
                               " new papers.")] |})
            end
        end.
Proof.
  intros Hd HC w1 delta record. unfold populate_block. rewrite Hd.
  change (negb false) with true. cbv iota.
  destruct (fetch_new_papers_run E ids (email a) w) as (t & Ht & Hrun).
  cbv zeta in Hrun. fold w1 delta record in Hrun.
  exists t. split; [done |]. rewrite bind_run, Hrun.
  destruct (decide (delta = [])); [done |].
  destruct (efetch E (email a) (join "," delta)) as [results | err]; [| done].
  destruct (render yml results) as [papers | err]; [| done].
  rewrite bind_run.
  rewrite (add_new_papers_full C)
    by (cbn [files]; rewrite lookup_insert_ne; [exact HC | by intros ?]).
  unfold print, log. simpl. rewrite <- !app_assoc. simpl.
  by rewrite <- !app_assoc.
Qed.

(** What any run does to the files: nothing to their bytes, or one
    ingestion on top of a world with the same bytes. *)
Lemma main_cases (a : args) (w : world) :
  (same_bytes w (main E a w).2 ∧
   ∃ t, trace (main E a w).2 = trace w ++ t ∧ Forall (λ e, is_write e = false) t)
  ∨
  ((main E a w).1 = Ok () ∧ do_not_populate a = false ∧
   ∃ ids wv results papers,
     esearch E (email a) (query a) (requested_retmax a w) = Ok ids ∧
     same_bytes w wv ∧
     ids_new ids (known_ids wv) ≠ [] ∧
     efetch E (email a) (join "," (ids_new ids (known_ids wv))) = Ok results ∧
     render yml results = Ok papers ∧
     files (main E a w).2
       = <[papers_path := prepended papers (content w papers_path)]>
           (<[ids_path := join "," (all_ids ids (known_ids wv))]> (files wv))).
Proof.
  rewrite main_run. cbv zeta.
  set (ws := log _ (ensured papers_path w)).
  assert (same_bytes w ws) as Hws by apply same_bytes_searched.
  assert (∃ t, trace ws = trace w ++ t ∧ Forall (λ e, is_write e = false) t)
    as (t0 & Ht0 & Hn0).
  { destruct (ensured_trace papers_path w) as (t & Ht & Hn).
    exists (t ++ [ESearch (query a) (requested_retmax a w)]).
    split; [unfold ws; simpl; by rewrite Ht, <- app_assoc |].
    apply Forall_app. split; [done | by repeat constructor]. }
  destruct (esearch E (email a) (query a) (requested_retmax a w)) as [ids | err] eqn:Hs;
    [| left; split; [done | by exists t0]].
  destruct (decide (ids = [])) as [-> | Hids]; [left; split; [done | by exists t0] |].
  rewrite bind_run.
  pose proof (read_only_verbose_block E a ids ws) as Hv.
  destruct (emits_verbose_block (λ e, is_write e = false) E a ids
              eq_refl (λ _, eq_refl) (λ _, eq_refl) ws) as (tv & Htv & Hnv).
  destruct (verbose_block E a ids ws) as [[[] | err] wv] eqn:Hblock; cbn [fst snd] in Hv, Htv |- *.
  2: { left. split; [by eapply same_bytes_trans |].
       exists (t0 ++ tv). split; [by rewrite Htv, Ht0, app_assoc | by apply Forall_app]. }
  assert (same_bytes w wv) as Hwv by (by eapply same_bytes_trans).
  assert (trace wv = trace w ++ (t0 ++ tv)) as Htr by (by rewrite Htv, Ht0, app_assoc).
  assert (Forall (λ e, is_write e = false) (t0 ++ tv)) as Hno by (by apply Forall_app).
  destruct (do_not_populate a) eqn:Hd.
  { left. unfold populate_block. rewrite Hd. simpl. split; [done | by eexists]. }
  assert (files wv !! papers_path = Some (content w papers_path)) as Hstore.
  { apply Hv. unfold ws. rewrite files_log. apply ensured_lookup. }
  destruct (populate_block_run a ids wv _ Hd Hstore) as (t & Ht & ->). cbv zeta.
  assert (same_bytes w (ensured ids_path wv)) as Hw1
    by (eapply same_bytes_trans; [exact Hwv | apply same_bytes_ensured]).
  destruct (ensured_trace ids_path wv) as (t1 & Ht1 & Hn1).
  assert (Forall (λ e, is_write e = false) t) as Hnt.
  { eapply Forall_impl; [exact Ht |]. intros e He. by destruct e. }
  destruct (decide (ids_new ids (known_ids wv) = [])) as [Hnil | Hnew].
  { left. split; [by eapply same_bytes_trans; [| apply same_bytes_log] |].
    exists ((t0 ++ tv) ++ t1 ++ [EPrint "No new papers found."]). simpl.
    split; [by rewrite Ht1, Htr, <- !app_assoc |].
    repeat (apply Forall_app; split); try done. by repeat constructor. }
  destruct (efetch E (email a) _) as [results | err] eqn:Hf.
  2: { left. split; [by eapply same_bytes_trans; [| apply same_bytes_log] |].
       exists ((t0 ++ tv) ++ t1 ++ [EFetch (join "," (ids_new ids (known_ids wv)))]).
       simpl. split; [by rewrite Ht1, Htr, <- !app_assoc |].
       repeat (apply Forall_app; split); try done. by repeat constructor. }
  destruct (render yml results) as [papers | err] eqn:Hr.
  2: { left. split.
       - destruct Hw1 as [Hc Hk]. by split.
       - exists ((t0 ++ tv) ++ t1 ++ EFetch (join "," (ids_new ids (known_ids wv))) :: t).
         simpl. split; [by rewrite Ht1, Htr, <- !app_assoc |].
         repeat (apply Forall_app; split); try done. by constructor. }
  right. split; [done |]. split; [done |].
  by exists ids, wv, results, papers.
Qed.

End Populate.

(** ** Invariants of a run *)

(** X8: a run that raises, whatever its flags and whatever raised,
    has changed the bytes of no file and has written to none. *)
Theorem main_failure_atomic (E : entrez) (a : args) (w w' : world) (err : exn) :
  main E a w = (Raise err, w') →
  same_bytes w w' ∧
  ∃ t, trace w' = trace w ++ t ∧ Forall (λ e, is_write e = false) t.
Proof.
  intros Hrun. destruct (main_cases E a w) as [Hsame | [Hok _]].
  - by rewrite Hrun in Hsame.
  - by rewrite Hrun in Hok.
Qed.

Lemma main_failure_atomic_witness :
  files (main (sample_entrez ["1"; "2"] untitled_entry) (sample_args 20 true false)
           some_files).2 !! ids_path = Some "1" ∧
  files (main (sample_entrez ["1"; "2"] untitled_entry) (sample_args 20 true false)
           some_files).2 !! papers_path = Some "- author: Old.".
Proof.
  assert ((main (sample_entrez ["1"; "2"] untitled_entry) (sample_args 20 true false)
             some_files).1 = Raise (KeyError "ArticleTitle")) as Hfirst
    by (vm_compute; reflexivity).
  destruct (main (sample_entrez ["1"; "2"] untitled_entry) (sample_args 20 true false)
              some_files) as [r w'] eqn:Hrun.
  simpl in Hfirst |- *. subst r.
  destruct (main_failure_atomic _ _ _ _ _ Hrun) as [[_ Hkeep] _].
  split; by apply Hkeep.
Defined.

(** X9: no run removes anything: after the run every file holds what it
    held, or new text followed by what it held as text mode reads it, a
    carriage return with or without its line feed having become one line
    feed; and every identifier that was known is still known. *)
Theorem main_never_loses (E : entrez) (a : args) (w : world) :
  (∀ path, content (main E a w).2 path = content w path ∨
           ∃ B, content (main E a w).2 path
                = B +:+ universal_newlines (content w path)) ∧
  (∀ i, i ∈ known_ids w → i ∈ known_ids (main E a w).2).
Proof.
  destruct (main_cases E a w) as [[Hsame _] | (_ & _ & Hin)].
  { split.
    - intros path. left. apply Hsame.
    - intros i. by apply same_bytes_known. }
  destruct Hin as (ids & wv & results & papers & _ & Hwv & Hnew & _ & _ & Hfiles).
  assert (join "," (all_ids ids (known_ids wv))
          = match files wv !! ids_path with
            | Some s => join "," (ids_new ids (known_ids wv))
                        +:+ String comma (universal_newlines s)
            | None => join "," (ids_new ids (known_ids wv))
            end) as Hrec.
  { unfold all_ids. destruct (files wv !! ids_path) as [s|] eqn:Hs.
    - assert (known_ids wv = split comma (universal_newlines s)) as Hk
        by (unfold known_ids; by rewrite Hs).
      rewrite join_app; [| done | rewrite Hk; apply split_not_nil].
      rewrite Hk. by rewrite (join_split comma).
    - assert (known_ids wv = []) as -> by (unfold known_ids; by rewrite Hs).
      by rewrite app_nil_r. }
  split.
  - intros path.
    assert (content (main E a w).2 path
            = default "" (<[papers_path := prepended papers (content w papers_path)]>
                (<[ids_path := join "," (all_ids ids (known_ids wv))]> (files wv))
                !! path)) as ->
      by (unfold content; by rewrite Hfiles).
    destruct (decide (path = papers_path)) as [-> | Hp].
    { rewrite lookup_insert_eq. unfold prepended.
      case_decide; [left | right; eexists]; reflexivity. }
    rewrite lookup_insert_ne by done.
    destruct (decide (path = ids_path)) as [-> | Hi].
    + rewrite lookup_insert_eq, Hrec. right.
      destruct Hwv as [Hc _]. rewrite <- (Hc ids_path). unfold content.
      destruct (files wv !! ids_path) as [s|].
      * exists (join "," (ids_new ids (known_ids wv)) +:+ ",").
        by rewrite append_assoc.
      * exists (join "," (ids_new ids (known_ids wv))).
        symmetry. apply append_nil_r.
    + rewrite lookup_insert_ne by done. left. apply Hwv.
  - intros i Hi. unfold known_ids at 1 in Hi.
    destruct (files w !! ids_path) as [s|] eqn:Hs; [| by apply elem_of_nil in Hi].
    destruct Hwv as [_ Hkeep]. specialize (Hkeep _ _ Hs).
    unfold known_ids at 1. rewrite Hfiles.
    rewrite lookup_insert_ne by apply paths_differ.
    rewrite lookup_insert_eq, Hrec, Hkeep.
    unfold universal_newlines at 1.
    rewrite translate_newlines_app_sep by done.
    fold (universal_newlines (universal_newlines s)).
    rewrite universal_newlines_idemp, split_app.
    apply elem_of_app. by right.
Qed.

(** ** A successful pass, end to end *)

(** X10: a pass without [--verbose] and [--do_not_populate] whose
    delta is not empty and whose records all parse ends without an error:
    the identifier file holds the new and the known identifiers; the store
    holds the rendered records, in the order fetched, before its old
    content as text mode reads it, a carriage return with or without its
    line feed having become one line feed, and is as it was when no record
    was fetched; no other file has changed; and the last line printed counts
    the records fetched. *)
Theorem main_ingests (E : entrez) (a : args) (w : world) (ids : list string)
    (results : list pubmed_entry) :
  verbose a = false → do_not_populate a = false →
  esearch E (email a) (query a) (requested_retmax a w) = Ok ids →
  ids_new ids (known_ids w) ≠ [] →
  efetch E (email a) (join "," (ids_new ids (known_ids w))) = Ok results →
  Forall (λ e, ¬ malformed e) results →
  ∃ papers w',
    main E a w = (Ok (), w') ∧
    Forall2 (λ e s, ∃ p, Paper_fields e = Ok p ∧ s = yml p) results papers ∧
    files w' !! ids_path = Some (join "," (all_ids ids (known_ids w))) ∧
    (results ≠ [] →
     files w' !! papers_path
     = Some (join "" papers +:+ universal_newlines (content w papers_path))) ∧
    (results = [] → files w' !! papers_path = Some (content w papers_path)) ∧
    (∀ path, path ≠ ids_path → path ≠ papers_path →
       files w' !! path = files w !! path) ∧
    last (trace w')
      = Some (EPrint ("Added " +:+ pretty (length results) +:+ " new papers.")).
Proof.
  intros Hv Hd Hs Hnew Hf Hok.
  rewrite main_run. cbv zeta. rewrite Hs.
  assert (ids ≠ []) as Hids by (by intros ->).
  rewrite decide_False by done.
  set (ws := log _ (ensured papers_path w)).
  assert (verbose_block E a ids ws = (Ok (), ws)) as Hblock
    by (unfold verbose_block; by rewrite Hv).
  rewrite (bind_Ok _ _ _ _ _ Hblock).
  assert (files ws !! papers_path = Some (content w papers_path)) as Hstore
    by apply ensured_lookup.
  destruct (populate_block_run E a ids ws _ Hd Hstore) as (t & Ht & ->). cbv zeta.
  assert (known_ids ws = known_ids w) as -> by apply known_ids_ensured_papers.
  rewrite decide_False, Hf by done.
  destruct (render_Ok yml results Hok) as (papers & Hr & Hlen).
  rewrite Hr. eexists papers, _. split; [reflexivity |]. cbn [files trace].
  split_and!.
  - by apply render_Forall2.
  - rewrite lookup_insert_ne by apply paths_differ. apply lookup_insert_eq.
  - intros Hres. rewrite lookup_insert_eq. unfold prepended.
    rewrite decide_False; [done |]. intros ->. by destruct results.
  - intros ->. rewrite lookup_insert_eq. unfold prepended.
    rewrite decide_True; [done |]. by destruct papers.
  - intros path Hi Hp. rewrite !lookup_insert_ne by done.
    unfold ws. rewrite files_log. by apply ensured_lookup_ne.
  - rewrite Hlen, app_comm_cons, !app_assoc. apply last_snoc.
Qed.

Lemma main_ingests_witness :
  ∃ papers w',
    main (sample_entrez ["1"; "2"] sample_entry) (sample_args 20 false false)
      some_files = (Ok (), w') ∧
    files w' !! ids_path = Some "2,1" ∧
    files w' !! papers_path = Some (join "" papers +:+ "- author: Old.") ∧
    last (trace w') = Some (EPrint "Added 1 new papers.").
Proof.
  destruct (main_ingests (sample_entrez ["1"; "2"] sample_entry)
              (sample_args 20 false false) some_files ["1"; "2"] [sample_entry])
    as (papers & w' & Hrun & _ & Hids & Hstore & _ & _ & Hlast).
  - reflexivity.
  - reflexivity.
  - reflexivity.
  - by vm_compute.
  - reflexivity.
  - repeat constructor. intros [err H]. vm_compute in H. discriminate H.
  - exists papers, w'. split; [exact Hrun |]. split_and!.
    + rewrite Hids. by vm_compute.
    + by rewrite Hstore.
    + exact Hlast.
Defined.

(** X11: an identifier file that exists and is empty is read as
    one known identifier, the empty string; the record that the next
    successful pass writes then ends with a comma. *)
Theorem empty_identifier_file (E : entrez) (ids : list string) (email : string)
    (w : world) (results : list pubmed_entry) :
  files w !! ids_path = Some "" →
  ids ≠ [] → "" ∉ ids →
  efetch E email (join "," ids) = Ok results →
  Forall (λ e, ¬ malformed e) results →
  known_ids w = [""] ∧
  ∃ papers w',
    fetch_new_papers E ids email false w = (Ok (Some papers), w') ∧
    files w' !! ids_path = Some (join "," ids +:+ ",").
Proof.
  intros Hfile Hids Hno Hf Hok.
  assert (known_ids w = [""]) as Hk by (unfold known_ids; by rewrite Hfile).
  split; [done |].
  assert (ids_new ids (known_ids w) = ids) as Hnew.
  { rewrite Hk. apply ids_new_disjoint. intros i Hi Hin.
    apply list_elem_of_singleton in Hin as ->. done. }
  destruct (fetch_new_papers_run E ids email w) as (t & Ht & Hrun).
  cbv zeta in Hrun. rewrite Hnew, decide_False, Hf in Hrun by done.
  destruct (render_Ok yml results Hok) as (papers & Hr & _).
  rewrite Hr in Hrun. eexists _, _. split; [exact Hrun |]. cbn [files].
  rewrite lookup_insert_eq. f_equal. unfold all_ids. rewrite Hnew, Hk.
  by rewrite join_app.
Qed.

Lemma empty_identifier_file_witness :
  ∃ papers w',
    fetch_new_papers (sample_entrez ["1"; "2"] sample_entry) ["1"; "2"]
      "me@example.org" false
      {| files := {[ ids_path := "" ]}; trace := [] |} = (Ok (Some papers), w') ∧
    files w' !! ids_path = Some "1,2,".
Proof.
  destruct (empty_identifier_file (sample_entrez ["1"; "2"] sample_entry)
              ["1"; "2"] "me@example.org"
              {| files := {[ ids_path := "" ]}; trace := [] |}
              [sample_entry; sample_entry])
    as (_ & papers & w' & Hrun & Hfile).
  - reflexivity.
  - done.
  - intros Hin. apply list_elem_of_In in Hin. simpl in Hin.
    destruct Hin as [? | [? | []]]; discriminate.
  - reflexivity.
  - repeat constructor; intros [err H]; vm_compute in H; discriminate H.
  - by exists papers, w'.
Defined.

(** X13: merging the delta into the known identifiers repeats none as
    long as neither the candidates nor the known identifiers repeat one,
    keeps every known identifier, and leaves no candidate new. *)
Theorem all_ids_dedup (ids previous_ids : list string) :
  (NoDup ids → NoDup previous_ids → NoDup (all_ids ids previous_ids)) ∧
  (∀ i, i ∈ previous_ids → i ∈ all_ids ids previous_ids) ∧
  ids_new ids (all_ids ids previous_ids) = [].
Proof.
  split_and!.
  - intros Hids Hprev. unfold all_ids, ids_new. apply NoDup_app. split_and!.
    + by apply NoDup_filter.
    + intros i Hi. by apply list_elem_of_filter in Hi as [? _].
    + done.
  - intros i Hi. apply all_ids_elem. by right.
  - apply ids_new_all. intros i Hi. apply all_ids_elem. by left.
Qed.

Lemma all_ids_dedup_witness :
  NoDup (all_ids ["3"; "1"; "4"] ["1"; "2"]) ∧
  ids_new ["3"; "1"; "4"] (all_ids ["3"; "1"; "4"] ["1"; "2"]) = [].
Proof.
  split.
  - apply (proj1 (all_ids_dedup ["3"; "1"; "4"] ["1"; "2"])); compute_done.
  - apply (proj2 (proj2 (all_ids_dedup ["3"; "1"; "4"] ["1"; "2"]))).
Defined.

(** ** Verbose runs *)

Lemma mapM_print_run (lines : list string) (w : world) :
  mapM print lines w
  = (Ok ((λ _, ()) <$> lines),
     {| files := files w; trace := trace w ++ (EPrint <$> lines) |}).
Proof.
  revert w. induction lines as [|line lines IH]; intros w.
  - simpl. by rewrite app_nil_r, world_eta.
  - rewrite mapM_cons_run. unfold print at 1. rewrite IH. simpl.
    by rewrite <- app_assoc.
Qed.

(** X12: a run with [--verbose] and [--do_not_populate] fetches the
    details of every identifier found, known or not, and prints the long
    form of each record, in the order fetched, after the lines the parser
    prints; the files keep what they had. *)
Theorem verbose_dry_run_prints (E : entrez) (a : args) (w : world)
    (ids : list string) (results : list pubmed_entry) (prints : list string) :
  verbose a = true → do_not_populate a = true →
  esearch E (email a) (query a) (requested_retmax a w) = Ok ids →
  ids ≠ [] →
  efetch E (email a) (join "," ids) = Ok results →
  render long_print results = Ok prints →
  ∃ t w1,
    w1 = ensured ids_path
           (log (ESearch (query a) (requested_retmax a w)) (ensured papers_path w)) ∧
    Forall (λ e, is_print e = true) t ∧
    main E a w
    = (Ok (),
       {| files := files w1;
          trace := trace w1 ++ EFetch (join "," ids) :: t ++ (EPrint <$> prints) |}).
Proof.
  intros Hv Hd Hs Hids Hf Hr.
  rewrite main_run. cbv zeta. rewrite Hs, decide_False by done.
  set (ws := log _ (ensured papers_path w)).
  unfold verbose_block, populate_block. rewrite Hv, Hd. simpl negb. cbv iota.
  unfold fetch_new_papers.
  rewrite !bind_run, load_previous_ids_run. cbv iota beta.
  rewrite bind_run, fetch_details_run, Hf.
  destruct (mapM_Paper_init long_print results
              (log (EFetch (join "," ids)) (ensured ids_path ws)))
    as (t & Ht & Hrun).
  rewrite bind_run, Hrun, Hr.
  exists t, (ensured ids_path ws). split; [done |]. split; [done |].
  unfold mret at 1, M_ret at 1. cbv beta iota.
  rewrite bind_run, mapM_print_run. unfold mret, M_ret. cbn [files trace log].
  by rewrite <- !app_assoc.
Qed.

Lemma verbose_dry_run_prints_witness :
  ∃ t,
    Forall (λ e, is_print e = true) t ∧
    main (sample_entrez ["1"; "2"] sample_entry) (sample_args 20 true true) some_files
    = (Ok (),
       {| files := files some_files;
          trace := ESearch "Tran L[Author]" 20 :: EFetch "1,2" :: t ++
                   [EPrint (long_print_of sample_entry);
                    EPrint (long_print_of sample_entry)] |}).
Proof.
  destruct (verbose_dry_run_prints (sample_entrez ["1"; "2"] sample_entry)
              (sample_args 20 true true) some_files ["1"; "2"]
              [sample_entry; sample_entry]
              [long_print_of sample_entry; long_print_of sample_entry])
    as (t & w1 & -> & Ht & Hrun).
  - reflexivity.
  - reflexivity.
  - reflexivity.
  - done.
  - reflexivity.
  - reflexivity.
  - exists t. split; [exact Ht |]. exact Hrun.
Defined.

Lemma dry_run_read_only_witness :
  same_bytes no_files
    (main (sample_entrez ["1"; "2"] sample_entry) (sample_args 20 true true) no_files).2.
Proof.
  exact (dry_run_read_only (sample_entrez ["1"; "2"] sample_entry)
           (sample_args 20 true true) eq_refl no_files).
Defined.

(** ** Which entries parse *)

Lemma parse_author_ok (author_info : gmap string string) :
  has_names author_info ↔ ∃ s, parse_author author_info = Ok s.
Proof.
  unfold has_names, parse_author, getitem. split.
  - intros [[ln Hl] [fn Hf]]. rewrite Hl. cbn. rewrite Hf. by eexists.
  - intros [s H]. destruct (author_info !! "LastName"); [|done]. cbn in H.
    destruct (author_info !! "ForeName"); [|done]. by split; eexists.
Qed.

Lemma mapM_parse_author_ok (authors : list (gmap string string)) :
  Forall has_names authors ↔ ∃ l, mapM parse_author authors = Ok l.
Proof.
  induction authors as [|a authors IH].
  - split; [by eexists | by constructor].
  - split.
    + intros [Ha Hall]%Forall_cons.
      apply parse_author_ok in Ha as [s Hs]. apply IH in Hall as [l Hl].
      exists (s :: l). cbn. rewrite Hs. cbn. cbn in Hl. by rewrite Hl.
    + intros [l H]. cbn in H.
      destruct (parse_author a) as [s|] eqn:Hs; [|done]. cbn in H.
      destruct (mapM parse_author authors) as [k|] eqn:Hk; [|done].
      constructor; [apply parse_author_ok; by eexists | apply IH; by eexists].
Qed.

Lemma author_display_ok (authors : list (gmap string string)) :
  authors_ok authors ↔ ∃ s, author_display authors = Ok s.
Proof.
  unfold authors_ok, author_display.
  destruct (decide (length authors < 3)%nat) as [Hlen | Hlen].
  - rewrite mapM_parse_author_ok. split.
    + intros [l Hl]. rewrite Hl. by eexists.
    + intros [s H]. destruct (mapM parse_author authors); [by eexists | done].
  - destruct authors as [|a rest]; [split; [done | by intros [s ?]] |].
    rewrite parse_author_ok. split.
    + intros [s Hs]. rewrite Hs. by eexists.
    + intros [s H]. destruct (parse_author a); [by eexists | done].
Qed.

Lemma resolve_year_ok (article_info : article) (dates : list (gmap string string)) :
  ArticleDate article_info = Some dates →
  dates_ok dates ↔ ∃ y, resolve_year article_info = Ok y.
Proof.
  intros Hd. unfold dates_ok, resolve_year. rewrite Hd. cbn.
  destruct dates as [|d rest].
  - split; [| done]. intros _.
    pose proof (journal_year_pub_year article_info) as Hj.
    destruct (pub_year article_info); [rewrite Hj; by eexists |].
    destruct Hj as [key ->]. by eexists.
  - unfold getitem.
    destruct (d !! "Year"); split; try done; try (by eexists); by intros [? ?].
Qed.

Lemma parse_journal_ok (j : journal) (pagination : option (gmap string string)) :
  journal_ok j pagination ↔ ∃ s, parse_journal j pagination = Ok s.
Proof.
  unfold journal_ok, parse_journal.
  destruct (ISOAbbreviation j) as [abbrev|]; cbn;
    [| split; [by intros [[? ?] _] | by intros [? ?]]].
  destruct (JournalIssue j) as [issue|]; [| split; [by eexists | done]].
  destruct (Volume issue) as [volume|]; cbn.
  2: { split; [by intros [_ [[? ?] _]] |].
       intros [s H]. by destruct (truthy pagination && _). }
  destruct (truthy pagination) eqn:Ht; cbn.
  2: { split; [by eexists | done]. }
  destruct (Issue issue) as [number|]; cbn.
  2: { split; [by eexists |]. intros _. split; [done |]. split; [done |].
       by intros _ [? ?]. }
  unfold getitem. destruct (default ∅ pagination !! "MedlinePgn") as [pgn|]; cbn.
  - split; [by eexists | done].
  - split.
    + intros (_ & _ & H). by destruct (H eq_refl (mk_is_Some _ _ eq_refl)).
    + by intros [? ?].
Qed.

(** X4: [Paper] builds a citation from an entry exactly when the
    entry has its citation and article with an author list, an article-date
    list, a title, a journal with an abbreviation and a list of electronic
    locations; the authors that are displayed carry their last name and
    forename; a first article date carries its year; and a journal issue
    carries its volume, and the page range when there is pagination and an
    issue number. *)
Theorem Paper_parses_iff (e : pubmed_entry) :
  parses e ↔ ∃ p, Paper_fields e = Ok p.
Proof.
  split.
  - intros (art & authors & dates & j & Hart & Hau & Hauok & Hd & Hdok &
            [t Ht] & Hj & Hjok & [el Hel]).
    unfold Paper_fields. unfold article_of in Hart.
    destruct (MedlineCitation e) as [cit|]; [|done]. cbn in Hart |- *.
    rewrite Hart. cbn. rewrite Hau. cbn.
    apply author_display_ok in Hauok as [fa ->]. cbn.
    apply (resolve_year_ok art dates Hd) in Hdok as [y ->]. cbn.
    rewrite Ht. cbn. rewrite Hj. cbn.
    apply parse_journal_ok in Hjok as [ji ->]. cbn.
    rewrite Hel. cbn. by eexists.
  - intros [p Hp]. unfold Paper_fields in Hp. unfold parses, article_of.
    destruct (MedlineCitation e) as [cit|]; [|done]. cbn in Hp |- *.
    destruct (Article cit) as [art|]; [|done]. cbn in Hp |- *.
    destruct (AuthorList art) as [authors|] eqn:Hau; [|done]. cbn in Hp.
    destruct (author_display authors) as [fa|] eqn:Hfa; [|done]. cbn in Hp.
    destruct (resolve_year art) as [y|] eqn:Hy; [|done]. cbn in Hp.
    destruct (ArticleTitle art) as [t|] eqn:Ht; [|done]. cbn in Hp.
    destruct (Journal art) as [j|] eqn:Hj; [|done]. cbn in Hp.
    destruct (parse_journal j (Pagination art)) as [ji|] eqn:Hji; [|done]. cbn in Hp.
    destruct (ELocationID art) as [el|] eqn:Hel; [|done].
    destruct (ArticleDate art) as [dates|] eqn:Hd; [| by unfold resolve_year in Hy; rewrite Hd in Hy].
    exists art, authors, dates, j. split_and!; try done.
    + apply author_display_ok. by eexists.
    + apply (resolve_year_ok art dates Hd). by eexists.
    + apply parse_journal_ok. by eexists.
Qed.

Lemma Paper_parses_iff_witness :
  (∃ p, Paper_fields sample_entry = Ok p) ∧ ¬ parses untitled_entry ∧
  ¬ parses unbound_entry.
Proof.
  split_and!.
  - apply (proj1 (Paper_parses_iff sample_entry)).
    exists (sample_article (sample_journal (Some (sample_issue (Some "12") (Some "3"))))
              (Some "A title")),
      [author_dict "Tran" "Lina"; author_dict "Doe" "Jane"], [],
      (sample_journal (Some (sample_issue (Some "12") (Some "3")))).
    split_and!; try reflexivity; try (by eexists).
    unfold authors_ok. simpl. repeat constructor; by eexists.
  - intros [p Hp]%(proj1 (Paper_parses_iff untitled_entry)). discriminate Hp.
  - intros [p Hp]%(proj1 (Paper_parses_iff unbound_entry)). discriminate Hp.
Defined.

(** X3: [parse_journal] raises [KeyError] for a journal
    without abbreviation, for a journal issue without volume, and for
    pagination without page range when the issue has its number. *)
Theorem parse_journal_raises (j : journal) (pagination : option (gmap string string)) :
  (ISOAbbreviation j = None →
   parse_journal j pagination = Raise (KeyError "ISOAbbreviation")) ∧
  (∀ issue, is_Some (ISOAbbreviation j) → JournalIssue j = Some issue →
     Volume issue = None → parse_journal j pagination = Raise (KeyError "Volume")) ∧
  (∀ issue d, is_Some (ISOAbbreviation j) → JournalIssue j = Some issue →
     is_Some (Volume issue) → is_Some (Issue issue) →
     pagination = Some d → d ≠ ∅ → d !! "MedlinePgn" = None →
     parse_journal j pagination = Raise (KeyError "MedlinePgn")).
Proof.
  unfold parse_journal. split_and!.
  - by intros ->.
  - intros issue [abbrev ->] -> Hv. cbn. rewrite Hv.
    by destruct (truthy pagination && _).
  - intros issue d [abbrev ->] -> [volume Hv] [number Hi] -> Hd Hp. cbn.
    rewrite bool_decide_true by done. rewrite Hv, Hi. cbn.
    unfold getitem. by rewrite Hp.
Qed.

Lemma parse_journal_raises_witness :
  parse_journal {| ISOAbbreviation := None; JournalIssue := None |} None
    = Raise (KeyError "ISOAbbreviation") ∧
  parse_journal (sample_journal (Some (sample_issue (Some "12") (Some "3"))))
      (Some {[ "StartPage" := "1" ]})
    = Raise (KeyError "MedlinePgn").
Proof.
  split.
  - by apply (proj1 (parse_journal_raises _ None)).
  - apply (proj2 (proj2 (parse_journal_raises _ _)) (sample_issue (Some "12") (Some "3"))
             {[ "StartPage" := "1" ]}); try done; try by eexists.
Defined.

Lemma parse_journal_tiers_witness :
  parse_journal (sample_journal None) (Some {[ "MedlinePgn" := "1-9" ]}) = Ok "Nature" ∧
  parse_journal (sample_journal (Some (sample_issue (Some "12") (Some "3")))) (Some ∅)
    = Ok "Nature, 12" ∧
  parse_journal (sample_journal (Some (sample_issue (Some "12") (Some "3"))))
      (Some {[ "MedlinePgn" := "1-9" ]})
    = Ok "Nature, 12, 3, 1-9".
Proof.
  split_and!.
  - by apply (proj1 (parse_journal_tiers "Nature" (sample_journal None) _ eq_refl)).
  - rewrite (proj1 (proj2 (parse_journal_tiers "Nature"
                             (sample_journal (Some (sample_issue (Some "12") (Some "3"))))
                             (Some ∅) eq_refl))
               (sample_issue (Some "12") (Some "3")) "12" eq_refl eq_refl);
      [reflexivity | left; reflexivity].
  - by apply (proj2 (proj2 (parse_journal_tiers "Nature"
                              (sample_journal (Some (sample_issue (Some "12") (Some "3"))))
                              (Some {[ "MedlinePgn" := "1-9" ]}) eq_refl))
                (sample_issue (Some "12") (Some "3")) "12" "3"
                {[ "MedlinePgn" := "1-9" ]} "1-9").
Defined.

(** X14: in a citation built from an entry, the title is the article's,
    the abstract is the article's or empty, the link is the DOI address of
    the first electronic location or empty when the list is empty, and the
    two printed forms are the formats filled with these fields: the block
    written to the store has author, title, journal issue, link and year,
    and not the abstract. *)
Theorem Paper_derived_fields (e : pubmed_entry) (article_info : article) (p : Paper) :
  article_of e = Some article_info →
  Paper_fields e = Ok p →
  ArticleTitle article_info = Some (title p) ∧
  abstract p = default "" (Abstract article_info) ∧
  (∃ eloc, ELocationID article_info = Some eloc ∧
           link p = match eloc with
                    | x :: _ => "https://doi.org/" +:+ x
                    | [] => ""
                    end) ∧
  yml p = format_yml (first_author p) (title p) (journal_info p) (link p) (year p) ∧
  long_print p
    = format_long_print (first_author p) (year p) (title p) (journal_info p)
        (abstract p) (link p).
Proof.
  unfold Paper_fields, article_of. intros Hart H.
  destruct (MedlineCitation e) as [cit|]; [|done]. cbn in Hart, H.
  rewrite Hart in H. cbn in H.
  destruct (AuthorList article_info) as [authors|]; [|done]. cbn in H.
  destruct (author_display authors) as [fa|]; [|done]. cbn in H.
  destruct (resolve_year article_info) as [y|]; [|done]. cbn in H.
  destruct (ArticleTitle article_info) as [t|]; [|done]. cbn in H.
  destruct (Journal article_info) as [j|]; [|done]. cbn in H.
  destruct (parse_journal j (Pagination article_info)) as [ji|]; [|done]. cbn in H.
  destruct (ELocationID article_info) as [el|]; [|done]. cbn in H.
  injection H as <-. cbn. split_and!; try done. by exists el.
Qed.

Lemma Paper_derived_fields_witness :
  ∃ p, Paper_fields sample_entry = Ok p ∧
       title p = "A title" ∧ abstract p = "" ∧ link p = "https://doi.org/10.1/x" ∧
       yml p = sample_yml.
Proof.
  destruct (Paper_fields sample_entry) as [p|] eqn:Hp; [| discriminate Hp].
  destruct (Paper_derived_fields sample_entry _ p eq_refl Hp)
    as (Ht & Ha & (eloc & Hel & Hl) & Hy & _).
  exists p. split; [done |].
  injection Ht as Ht. injection Hel as <-.
  vm_compute in Hp. injection Hp as <-. by vm_compute.
Defined.
